(** * SRD reference-data search and disambiguation

    A shallow embedding of [backends/srd_json.py] (field collapser, spell
    formatter, search engine) and of the match-selection logic of
    [cogs/srdcog.py] (spell command), with the properties of the search and
    disambiguation core stated over it.

    Conventions of the embedding.
    - A Python [str] is a [string]: the UTF-8 bytes of the text.  [str.lower]
      and [str.split] are given on the ASCII range (letters [A-Z], ASCII white
      space); they agree with Python on every text whose cased letters and
      white space are ASCII.
    - A value produced by [json.load] is a [json]: [None], [bool], [int],
      [float], [str], [list] and [dict] with string keys.  A [dict] keeps its
      entries in insertion order, so it is an association list; the loader
      never produces two entries with one key.
    - A Python computation that may raise is a [res]: [Ok v] for a normal
      return, [Raise e] for an exception of class [e] leaving the function. *)

From Stdlib Require Import ZArith String Ascii List Bool Lia Floats.
From stdpp Require Import gmap strings.

Local Open Scope Z_scope.

#[local] Set Warnings "-register-all".

(** ** Python strings *)

Module Str.

(** One character, [str.lower] on the ASCII range. *)
Definition lower_char (c : ascii) : ascii :=
  let n := N_of_ascii c in
  if ((65 <=? n) && (n <=? 90))%N then ascii_of_N (n + 32) else c.

(** [s.lower()] *)
Fixpoint lower (s : string) : string :=
  match s with
  | EmptyString => EmptyString
  | String c rest => String (lower_char c) (lower rest)
  end.

(** [needle in hay] on two strings: substring test. *)
Fixpoint contains (needle hay : string) : bool :=
  String.prefix needle hay
  || match hay with
     | EmptyString => false
     | String _ rest => contains needle rest
     end.

(** White space as [str.split()] sees it (ASCII range). *)
Definition is_space (c : ascii) : bool :=
  let n := N_of_ascii c in
  (((9 <=? n) && (n <=? 13)) || ((28 <=? n) && (n <=? 32)))%N.

Fixpoint split_from (s word : string) : list string :=
  match s with
  | EmptyString => match word with EmptyString => [] | _ => [word] end
  | String c rest =>
      if is_space c
      then match word with
           | EmptyString => split_from rest EmptyString
           | _ => word :: split_from rest EmptyString
           end
      else split_from rest (String.append word (String c EmptyString))
  end.

(** [s.split()]: the maximal runs of non-space characters. *)
Definition split (s : string) : list string := split_from s EmptyString.

(** [sep.join(parts)] *)
Definition join (sep : string) (parts : list string) : string :=
  String.concat sep parts.

(** A UTF-8 continuation byte belongs to the character before it. *)
Definition is_continuation (c : ascii) : bool :=
  let n := N_of_ascii c in ((128 <=? n) && (n <? 192))%N.

Definition starts_with_continuation (s : string) : bool :=
  match s with
  | EmptyString => false
  | String d _ => is_continuation d
  end.

(** The characters of a string, as iterating over a [str] yields them. *)
Fixpoint chars (s : string) : list string :=
  match s with
  | EmptyString => []
  | String c rest =>
      match chars rest with
      | w :: ws =>
          if starts_with_continuation rest then String c w :: ws
          else String c EmptyString :: w :: ws
      | [] => [String c EmptyString]
      end
  end.

End Str.

(** ** Values loaded from the JSON files *)

Inductive json : Type :=
| JNull
| JBool (b : bool)
| JInt (n : Z)
| JFloat (f : float)
| JStr (s : string)
| JList (items : list json)
| JDict (entries : list (string * json)).

(** ** Exceptions *)

Inductive exn : Type := KeyError | IndexError | TypeError | AttributeError | ValueError.

Inductive res (A : Type) : Type :=
| Ok (a : A)
| Raise (e : exn).

Arguments Ok {A} a.
Arguments Raise {A} e.

Definition bind {A B : Type} (m : res A) (k : A -> res B) : res B :=
  match m with
  | Ok a => k a
  | Raise e => Raise e
  end.

Notation "x <- m ;; k" := (bind m (fun x => k))
  (at level 100, m at next level, right associativity).

Definition is_ok {A : Type} (m : res A) : bool :=
  match m with Ok _ => true | Raise _ => false end.

(** Formatting every element of a list in order; the first exception wins. *)
Fixpoint map_res {A B : Type} (f : A -> res B) (l : list A) : res (list B) :=
  match l with
  | [] => Ok []
  | x :: rest => y <- f x ;; ys <- map_res f rest ;; Ok (y :: ys)
  end.

(** ** Python operations on loaded values *)

(** [d[key]] on the entries of a dict. *)
Fixpoint dict_get (entries : list (string * json)) (key : string) : option json :=
  match entries with
  | [] => None
  | (k, v) :: rest => if String.eqb k key then Some v else dict_get rest key
  end.

(** [obj[key]] with a string key. *)
Definition getitem (obj : json) (key : string) : res json :=
  match obj with
  | JDict entries =>
      match dict_get entries key with
      | Some v => Ok v
      | None => Raise KeyError
      end
  | _ => Raise TypeError
  end.

(** [key in obj] with a string key: key of a dict, element of a list,
    substring of a string. *)
Definition contains (key : string) (obj : json) : res bool :=
  match obj with
  | JDict entries => Ok (existsb (fun kv => String.eqb (fst kv) key) entries)
  | JList items =>
      Ok (existsb (fun x => match x with JStr s => String.eqb s key | _ => false end) items)
  | JStr s => Ok (Str.contains key s)
  | _ => Raise TypeError
  end.

(** [seq[i]] on a Python list, for an index within [0 .. len). *)
Definition list_get {A : Type} (l : list A) (i : nat) : res A :=
  match nth_error l i with
  | Some x => Ok x
  | None => Raise IndexError
  end.

(** [items[0]] *)
Definition first_item (items : json) : res json :=
  match items with
  | JList l => list_get l 0
  | JStr s => list_get (map JStr (Str.chars s)) 0
  | JDict _ => Raise KeyError
  | _ => Raise TypeError
  end.

(** [items[1:]], as the sequence a [for] loop runs over. *)
Definition rest_items (items : json) : res (list json) :=
  match items with
  | JList l => Ok (tl l)
  | JStr s => Ok (tl (map JStr (Str.chars s)))
  | _ => Raise TypeError
  end.

(** [len(items)] *)
Definition len (items : json) : res Z :=
  match items with
  | JList l => Ok (Z.of_nat (length l))
  | JStr s => Ok (Z.of_nat (length (Str.chars s)))
  | JDict d => Ok (Z.of_nat (length d))
  | _ => Raise TypeError
  end.

(** [prefix + v] and [v + suffix] where the other operand is a string. *)
Definition as_str (v : json) : res string :=
  match v with
  | JStr s => Ok s
  | _ => Raise TypeError
  end.

(** [text += s] with [s] a string: concatenation on a [str], in-place
    extension by the characters of [s] on a [list]. *)
Definition iadd_str (text : json) (s : string) : res json :=
  match text with
  | JStr t => Ok (JStr (t +:+ s))
  | JList l => Ok (JList (l ++ map JStr (Str.chars s)))
  | _ => Raise TypeError
  end.

(** [v == 0] *)
Definition eq_zero (v : json) : bool :=
  match v with
  | JInt n => n =? 0
  | JBool b => negb b
  | JFloat f => PrimFloat.eqb f 0%float
  | _ => false
  end.

(** [v == s] with [s] a string. *)
Definition eq_str (v : json) (s : string) : bool :=
  match v with
  | JStr t => String.eqb t s
  | _ => false
  end.

(** [', '.join(v)]: over the elements of a list, the characters of a string,
    the keys of a dict. *)
Definition join_value (sep : string) (v : json) : res string :=
  match v with
  | JList l => parts <- map_res as_str l ;; Ok (Str.join sep parts)
  | JStr s => Ok (Str.join sep (Str.chars s))
  | JDict d => Ok (Str.join sep (map fst d))
  | _ => Raise TypeError
  end.

(** ** [srd_json]: constants and the normalized record *)

Definition NUM_ABBREVS : list string :=
  ["1st"; "2nd"; "3rd"; "4th"; "5th"; "6th"; "7th"; "8th"; "9th"]%string.

(** [NUM_ABBREVS[i]]: a tuple index counts from the end when negative. *)
Definition tuple_get (t : list string) (i : Z) : res string :=
  let n := Z.of_nat (length t) in
  if (0 <=? i) && (i <? n) then list_get t (Z.to_nat i)
  else if (- n <=? i) && (i <? 0) then list_get t (Z.to_nat (n + i))
  else Raise IndexError.

(** [NUM_ABBREVS[level - 1]] *)
Definition num_abbrev (level : json) : res string :=
  match level with
  | JInt n => tuple_get NUM_ABBREVS (n - 1)
  | JBool b => tuple_get NUM_ABBREVS ((if b then 1 else 0) - 1)
  | _ => Raise TypeError
  end.

Record SpellInfo : Type := mkSpellInfo {
  name : json;
  subhead : string;
  casting_time : json;
  casting_range : json;
  components : string;
  duration : json;
  description : json;
  higher_levels : option json;
  page : string
}.

(** The paragraph separator of [collapse]: two line feeds. *)
Definition PARA : string := String "010" (String "010" EmptyString).

(** The paragraph break of [list_to_paragraphs]: a line feed and an EM QUAD
    (U+2001, three bytes in UTF-8). *)
Definition INDENT : string :=
  String "010" (String "226" (String "128" (String "129" EmptyString))).

(** ** [srd_json.collapse] *)

Fixpoint collapse (item : json) : string :=
  match item with
  | JStr s => s
  | JList l =>
      fold_left (fun result subitem => result +:+ PARA +:+ collapse subitem) l EmptyString
  | JDict d =>
      fold_left (fun result kv => result +:+ PARA +:+ collapse (snd kv)) d EmptyString
  | _ => EmptyString
  end.

(** ** [srd_json.list_to_paragraphs]

    [text] starts as [items[0]] and every later paragraph is added with
    [text += '\n\u2001' + para].  The value returned is modelled; when
    [items[0]] is itself a list the Python statement also extends that list
    inside the loaded table, which no property below depends on. *)

Fixpoint add_paragraphs (text : json) (paras : list json) : res json :=
  match paras with
  | [] => Ok text
  | para :: rest =>
      p <- as_str para ;;
      text' <- iadd_str text (INDENT +:+ p) ;;
      add_paragraphs text' rest
  end.

Definition list_to_paragraphs (items : json) : res json :=
  text <- first_item items ;;
  n <- len items ;;
  if 1 <? n
  then paras <- rest_items items ;; add_paragraphs text paras
  else Ok text.

(** ** [srd_json.get_spell_info] *)

(** [spell['school']['name']] *)
Definition school_name (spell : json) : res json :=
  school <- getitem spell "school" ;; getitem school "name".

(** [v.lower()]: only a [str] has the method. *)
Definition lower_value (v : json) : res string :=
  match v with
  | JStr s => Ok (Str.lower s)
  | _ => Raise AttributeError
  end.

(** Lines 57-65: the subhead. *)
Definition spell_subhead (spell : json) : res string :=
  level <- getitem spell "level" ;;
  if eq_zero level
  then
    school <- school_name spell ;;
    s <- as_str school ;;
    Ok (s +:+ " cantrip")
  else
    abbrev <- num_abbrev level ;;
    let subhead := abbrev +:+ "-level " in
    school <- school_name spell ;;
    s <- lower_value school ;;
    let subhead := subhead +:+ s in
    ritual <- getitem spell "ritual" ;;
    if eq_str ritual "yes" then Ok (subhead +:+ " (ritual)") else Ok subhead.

(** Lines 68-70: the components, with the material note. *)
Definition spell_components (spell : json) : res string :=
  raw_components <- getitem spell "components" ;;
  components <- join_value ", " raw_components ;;
  if Str.contains "M" components
  then
    material <- getitem spell "material" ;;
    m <- as_str material ;;
    Ok (components +:+ " (" +:+ m +:+ ")")
  else Ok components.

(** Lines 73-76: the optional "higher levels" section. *)
Definition spell_higher_levels (spell : json) : res (option json) :=
  present <- contains "higher_level" spell ;;
  if present
  then
    raw_higher <- getitem spell "higher_level" ;;
    text <- list_to_paragraphs raw_higher ;;
    Ok (Some text)
  else Ok None.

(** Line 77: [spell['page'].split()[-1]] *)
Definition spell_page (spell : json) : res string :=
  raw_page <- getitem spell "page" ;;
  match raw_page with
  | JStr s =>
      match rev (Str.split s) with
      | token :: _ => Ok token
      | [] => Raise IndexError
      end
  | _ => Raise AttributeError
  end.

Definition get_spell_info (spell : json) : res SpellInfo :=
  name <- getitem spell "name" ;;
  subhead <- spell_subhead spell ;;
  casting_time <- getitem spell "casting_time" ;;
  casting_range <- getitem spell "range" ;;
  components <- spell_components spell ;;
  duration <- getitem spell "duration" ;;
  raw_desc <- getitem spell "desc" ;;
  description <- list_to_paragraphs raw_desc ;;
  higher_levels <- spell_higher_levels spell ;;
  page <- spell_page spell ;;
  Ok (mkSpellInfo name subhead casting_time casting_range components duration
        description higher_levels page).

(** ** [srd_json.__SRD]

    [raw] maps a resource name to the records of its JSON file, in file
    order.  [search] is wrapped in [lru_cache]; it reads [raw] only, so a
    cached answer is the answer computed here. *)

Record SRD : Type := mkSRD { raw : gmap string (list json) }.

(** What a call of [search] hands back: the early exits return a bare list,
    the end of the function returns the pair [(results, truncated)]. *)
Inductive search_value : Type :=
| Bare (results : list SpellInfo)
| Pair (results : list SpellInfo) (truncated : bool).

(** [self.raw[resource]] *)
Definition raw_get (self : SRD) (resource : string) : res (list json) :=
  match raw self !! resource with
  | Some target => Ok target
  | None => Raise KeyError
  end.

(** Does an [except handler:] clause catch an exception of class [raised]?
    None of the classes used here derives from another one of them. *)
Definition catches (handler raised : exn) : bool :=
  match handler, raised with
  | KeyError, KeyError | IndexError, IndexError | TypeError, TypeError
  | AttributeError, AttributeError | ValueError, ValueError => true
  | _, _ => false
  end.

(** Lines 121-128: the scan, [results] being the matches collected so far. *)
Fixpoint scan (attr request : string) (trunc : Z) (target : list json)
    (results : list SpellInfo) : res (list SpellInfo * bool) :=
  match target with
  | [] => Ok (results, false)
  | item :: rest =>
      value <- getitem item attr ;;
      let search_text := Str.lower (collapse value) in
      if Str.contains request search_text
      then
        info <- get_spell_info item ;;
        let results := results ++ [info] in
        if negb (trunc =? 0) && (trunc <? Z.of_nat (length results))
        then Ok (results, true)
        else scan attr request trunc rest results
      else scan attr request trunc rest results
  end.

Definition search (self : SRD) (resource attr request : string) (trunc : Z)
    : res search_value :=
  match raw_get self resource with
  | Raise e => if catches ValueError e then Ok (Bare []) else Raise e
  | Ok target =>
      first <- list_get target 0 ;;
      present <- contains attr first ;;
      if negb present
      then Ok (Bare [])
      else
        found <- scan attr request trunc target [] ;;
        Ok (Pair (fst found) (snd found))
  end.

(** ** [srdcog.SRDCog.spell_command]: choosing among the matches

    Lines 39-50.  [matches] is what the search handed to the command, [name]
    reads the name of a match.  The three ways the command goes on are the
    constructors of [outcome]: the "couldn't find" message, the "could be"
    message with the names, or the embed built from the selected match. *)

Inductive outcome (A : Type) : Type :=
| NotFound
| Ambiguous (spell_names : list string)
| Resolved (spell : A).

Arguments NotFound {A}.
Arguments Ambiguous {A} spell_names.
Arguments Resolved {A} spell.

(** [x in names] on a list of strings. *)
Definition str_in_list (x : string) (names : list string) : bool :=
  existsb (String.eqb x) names.

(** [names.index(x)]: the first position, [ValueError] when there is none. *)
Fixpoint index (names : list string) (x : string) : res nat :=
  match names with
  | [] => Raise ValueError
  | y :: rest => if String.eqb y x then Ok O else i <- index rest x ;; Ok (S i)
  end.

Section Disambiguator.

Context {A : Type} (name_of : A -> string).

Definition disambiguate (request : string) (matches : list A) : res (outcome A) :=
  if (length matches =? 0)%nat then Ok NotFound
  else
    let spell_names := map name_of matches in
    let spell_names_lower := map (fun m => Str.lower (name_of m)) matches in
    if (1 <? length matches)%nat
       && negb (str_in_list (Str.lower request) spell_names_lower)
    then Ok (Ambiguous spell_names)
    else
      spell <- (if negb (str_in_list (Str.lower request) spell_names_lower)
                then list_get matches 0
                else i <- index spell_names_lower (Str.lower request) ;;
                     list_get matches i) ;;
      Ok (Resolved spell).

(** A candidate whose lower-cased name is the lower-cased request. *)
Definition exact_name (request : string) (m : A) : bool :=
  String.eqb (Str.lower (name_of m)) (Str.lower request).

End Disambiguator.

(** ** Notions used to state the properties *)

(** The string leaves of a value in traversal order: lists by index,
    mappings in stored key order. *)
Fixpoint string_leaves (item : json) : list string :=
  match item with
  | JStr s => [s]
  | JList l => flat_map string_leaves l
  | JDict d => flat_map (fun kv => string_leaves (snd kv)) d
  | _ => []
  end.

(** [k] paragraph separators in a row. *)
Fixpoint seps (k : nat) : string :=
  match k with
  | O => EmptyString
  | S k' => PARA +:+ seps k'
  end.

(** Leaves, each one preceded by one separator or more. *)
Fixpoint chain (ks : list nat) (ls : list string) : string :=
  match ks, ls with
  | k :: ks', l :: ls' => seps (S k) +:+ l +:+ chain ks' ls'
  | _, _ => EmptyString
  end.

(** [s] is made of the leaves [ls] in order, with at least one separator
    between two neighbours, possibly separators before the first leaf and
    after the last one, and nothing else. *)
Definition spread (ls : list string) (s : string) : Prop :=
  match ls with
  | [] => exists k, s = seps k
  | l :: ls' =>
      exists k0 ks kn,
        length ks = length ls' /\ s = seps k0 +:+ l +:+ chain ks ls' +:+ seps kn
  end.

(** The attribute of a record can be read: [item[attr]] does not raise. *)
Definition readable (attr : string) (item : json) : bool :=
  is_ok (getitem item attr).

(** The test of the scan: the request, as given, occurs in the lower-cased
    collapsed attribute. *)
Definition hit (attr request : string) (item : json) : bool :=
  match getitem item attr with
  | Ok value => Str.contains request (Str.lower (collapse value))
  | Raise _ => false
  end.

(** The case-insensitive substring test: both sides lower-cased. *)
Definition matches_ci (attr query : string) (item : json) : bool :=
  match getitem item attr with
  | Ok value => Str.contains (Str.lower query) (Str.lower (collapse value))
  | Raise _ => false
  end.

(** The attribute is present on the first record of the table. *)
Definition first_has (attr : string) (target : list json) : Prop :=
  exists first, list_get target 0 = Ok first /\ contains attr first = Ok true.

(** ** Induction on loaded values, through lists and dicts *)

Section JsonInduction.

Variable P : json -> Prop.
Hypothesis Hnull : P JNull.
Hypothesis Hbool : forall b, P (JBool b).
Hypothesis Hint : forall n, P (JInt n).
Hypothesis Hfloat : forall f, P (JFloat f).
Hypothesis Hstr : forall s, P (JStr s).
Hypothesis Hlist : forall l, Forall P l -> P (JList l).
Hypothesis Hdict : forall d, Forall (fun kv => P (snd kv)) d -> P (JDict d).

Fixpoint json_nested_ind (item : json) : P item :=
  match item with
  | JNull => Hnull
  | JBool b => Hbool b
  | JInt n => Hint n
  | JFloat f => Hfloat f
  | JStr s => Hstr s
  | JList l =>
      Hlist l
        ((fix all (l : list json) : Forall P l :=
            match l with
            | [] => List.Forall_nil P
            | x :: r => @List.Forall_cons _ P x r (json_nested_ind x) (all r)
            end) l)
  | JDict d =>
      Hdict d
        ((fix all (d : list (string * json)) : Forall (fun kv => P (snd kv)) d :=
            match d with
            | [] => List.Forall_nil _
            | kv :: r => @List.Forall_cons _ (fun kv => P (snd kv)) kv r (json_nested_ind (snd kv)) (all r)
            end) d)
  end.

End JsonInduction.

(** ** The shape of a spell record

    What [get_spell_info] expects of a record of the spells table: the
    fields of the dnd5eapi schema it reads, with levels 0 to 9, the range
    [NUM_ABBREVS] is written for. *)

Definition is_str (v : json) : bool :=
  match v with JStr _ => true | _ => false end.

Definition has (spell : json) (field : string) : bool := is_ok (getitem spell field).

(** A non-empty list of paragraphs. *)
Definition paragraphs (v : json) : bool :=
  match v with
  | JList (p :: ps) => is_str p && forallb is_str ps
  | _ => false
  end.

Definition level_shaped (spell : json) : bool :=
  match getitem spell "level" with
  | Ok (JInt n) => (0 <=? n) && (n <=? 9) && ((n =? 0) || has spell "ritual")
  | _ => false
  end.

Definition school_shaped (spell : json) : bool :=
  match school_name spell with
  | Ok (JStr _) => true
  | _ => false
  end.

Definition components_shaped (spell : json) : bool :=
  match getitem spell "components" with
  | Ok (JList parts) =>
      forallb is_str parts
      && match join_value ", " (JList parts) with
         | Ok joined =>
             negb (Str.contains "M" joined)
             || match getitem spell "material" with Ok (JStr _) => true | _ => false end
         | Raise _ => false
         end
  | _ => false
  end.

Definition desc_shaped (spell : json) : bool :=
  match getitem spell "desc" with
  | Ok v => paragraphs v
  | Raise _ => false
  end.

Definition higher_level_shaped (spell : json) : bool :=
  match spell with
  | JDict d =>
      match dict_get d "higher_level" with
      | Some v => paragraphs v
      | None => true
      end
  | _ => false
  end.

Definition page_shaped (spell : json) : bool :=
  match getitem spell "page" with
  | Ok (JStr s) => match Str.split s with [] => false | _ :: _ => true end
  | _ => false
  end.

Definition spell_shaped (spell : json) : bool :=
  has spell "name" && level_shaped spell && school_shaped spell
  && has spell "casting_time" && has spell "range" && components_shaped spell
  && has spell "duration" && desc_shaped spell && higher_level_shaped spell
  && page_shaped spell.

(** "1st" ... "9th": the ordinal of a one-digit level. *)
Definition ordinal (n : Z) : string :=
  String (ascii_of_N (48 + Z.to_N n))
    (if n =? 1 then "st" else if n =? 2 then "nd" else if n =? 3 then "rd" else "th").

(** The fields [get_spell_info] reads on every record. *)
Definition REQUIRED : list string :=
  ["name"; "level"; "school"; "casting_time"; "range"; "components"; "duration";
   "desc"; "page"]%string.

(** A record without one of them. *)
Definition lacks_required (item : json) : bool :=
  existsb (fun field => negb (has item field)) REQUIRED.

(** A mapping without a name or without a level. *)
Definition lacks_name_or_level (item : json) : bool :=
  match item with
  | JDict _ => negb (has item "name" && has item "level")
  | _ => false
  end.

(** [LookupError] and its subclasses. *)
Definition is_lookup_error (e : exn) : bool :=
  match e with
  | KeyError | IndexError => true
  | _ => false
  end.

(** ** Sample data *)

Definition spell_record (name : string) (level : Z) (school ritual : string) : json :=
  JDict [("name", JStr name); ("level", JInt level);
         ("school", JDict [("name", JStr school)]); ("ritual", JStr ritual);
         ("casting_time", JStr "1 action"); ("range", JStr "150 feet");
         ("components", JList [JStr "V"; JStr "S"]);
         ("duration", JStr "Instantaneous");
         ("desc", JList [JStr "A bright streak flashes."; JStr "The fire spreads."]);
         ("page", JStr "phb 241")]%string.

Definition fireball : json := spell_record "Fireball" 3 "Evocation" "no".

Definition spells_only : SRD := mkSRD {[ "spells"%string := [fireball] ]}.

(** The value of the collapse example: [{"a": "x", "b": ["y", "z"]}]. *)
Definition nested_example : json :=
  JDict [("a", JStr "x"); ("b", JList [JStr "y"; JStr "z"])]%string.

Definition fire_bolt : json := spell_record "Fire Bolt" 0 "Evocation" "no".

Definition wall_of_fire : json := spell_record "Wall of Fire" 4 "Evocation" "no".

Definition fire_table : list json := [fireball; fire_bolt; wall_of_fire].

Definition fire_spells : SRD := mkSRD {[ "spells"%string := fire_table ]}.

(** A class feature as the features table has it: a name, a level and a
    description, none of the other spell fields. *)
Definition rage : json :=
  JDict [("name", JStr "Rage"); ("level", JStr "1st");
         ("desc", JList [JStr "In battle, you fight with primal ferocity."])]%string.

Definition features_only : SRD := mkSRD {[ "features"%string := [rage] ]}.

(** A condition: a name and a description. *)
Definition blinded : json :=
  JDict [("name", JStr "Blinded");
         ("desc", JList [JStr "A blinded creature can't see."])]%string.

Definition conditions_only : SRD := mkSRD {[ "conditions"%string := [blinded] ]}.

(** ** Notions used to state further properties *)

(** No white space in a string; only white space in a string. *)
Fixpoint space_free (s : string) : bool :=
  match s with
  | EmptyString => true
  | String c rest => negb (Str.is_space c) && space_free rest
  end.

Fixpoint blank (s : string) : bool :=
  match s with
  | EmptyString => true
  | String c rest => Str.is_space c && blank rest
  end.

(** ** [srdcog]: the other commands

    The commands of [SRDCog] read their matches from search methods
    ([search_feature], [search_equipment], ...) that belong to the backend;
    here such a method is an argument of the command.  An embed is the pair
    of its title and its description. *)







(** What a command answers: the guard on short requests, or the selection
    made for the request that was finally searched. *)
Inductive reply (A : Type) : Type :=
| TooShort
| Answer (request : string) (selection : outcome A).

Arguments TooShort {A}.
Arguments Answer {A} request selection.

Section Equipment.

Context {A : Type} (name_of : A -> string) (search_equipment : string -> list A).

(** [equipment_command], lines 295-315: a request that finds nothing is
    searched again with its words joined by commas. *)
Definition equipment_command (args : list string) : res (reply A) :=
  let request := Str.join " " args in
  if (String.length request <=? 2)%nat then Ok TooShort
  else
    let matches := search_equipment request in
    let retried :=
      if (length matches =? 0)%nat
      then
        let request := Str.join ", " (Str.split request) in
        (request, search_equipment request)
      else (request, matches) in
    selection <- disambiguate name_of (fst retried) (snd retried) ;;
    Ok (Answer (fst retried) selection).

End Equipment.

(** A word as the command parser hands it over: not empty, no white space. *)
Definition word (w : string) : bool :=
  negb (String.eqb w EmptyString) && space_free w.

(** ** [db_functions]: the guild caches

    The three module-level lists are the fields of [caches].  A cache
    function runs as one task from its first statement to its last; what
    [db_query] hands back in the middle is an argument: [Some rows], or
    [None] when the query raised ([db_query] logs the error and returns
    [None]).  A row is read through its first two columns only.  The result
    pairs the way the function ends with the caches it leaves. *)

Section Caches.

Context {V : Type}.

(** The dict appended by [cache_subreddits]. *)
Record sr_dict : Type := mk_sr_dict { guild_id : V; subreddits : V }.

Record caches : Type := mkCaches {
  guild_ids : list V;
  guild_prefixes : list V;
  guild_subreddits : list sr_dict
}.

Definition cache_prefixes (guilds : option (list (V * V))) (st : caches)
    : res unit * caches :=
  let st := mkCaches [] (guild_prefixes st) (guild_subreddits st) in
  let st := mkCaches (guild_ids st) [] (guild_subreddits st) in
  let st := mkCaches (guild_ids st) (guild_prefixes st) [] in
  match guilds with
  | None => (Raise TypeError, st)
  | Some rows =>
      (Ok tt,
       fold_left
         (fun st guild =>
            let st := mkCaches (guild_ids st ++ [fst guild]) (guild_prefixes st)
                        (guild_subreddits st) in
            mkCaches (guild_ids st) (guild_prefixes st ++ [snd guild]) (guild_subreddits st))
         rows st)
  end.

Definition cache_subreddits (subreddits : option (list (V * V))) (st : caches)
    : res unit * caches :=
  let st := mkCaches (guild_ids st) (guild_prefixes st) [] in
  match subreddits with
  | None => (Raise TypeError, st)
  | Some rows =>
      (Ok tt,
       fold_left
         (fun st sr =>
            let sr_dict := mk_sr_dict (fst sr) (snd sr) in
            mkCaches (guild_ids st) (guild_prefixes st) (guild_subreddits st ++ [sr_dict]))
         rows st)
  end.

(** A call of one of the two cache functions, with what its query returns. *)
Inductive cache_call : Type :=
| CachePrefixes (guilds : option (list (V * V)))
| CacheSubreddits (subreddits : option (list (V * V))).

Definition after_call (st : caches) (call : cache_call) : caches :=
  match call with
  | CachePrefixes guilds => snd (cache_prefixes guilds st)
  | CacheSubreddits subreddits => snd (cache_subreddits subreddits st)
  end.

(** The caches after a series of calls, whether or not some of them raise. *)
Definition after_calls (calls : list cache_call) (st : caches) : caches :=
  fold_left after_call calls st.

End Caches.

Arguments sr_dict V : clear implicits.
Arguments caches V : clear implicits.
Arguments cache_call V : clear implicits.

(** ** [name_gen]

    [data] is the content of the YAML file: a table per race and per initial
    of the gender.  The random generator is an argument: [choices] stands
    for [r.choices(population, weights=...)[0]] and threads the state of the
    generator.  [print] is left out. *)

Record name_table (W : Type) : Type := mkNameTable {
  syl : list W;
  syllable_structures : Z * Z;
  vowels : Z * Z;
  onset : list (string * W);
  nucleus : list (string * W);
  vowel_length : list (string * W);
  tones : list (string * W);
  coda : list (string * W)
}.

Arguments syl {W}.
Arguments syllable_structures {W}.
Arguments vowels {W}.
Arguments onset {W}.
Arguments nucleus {W}.
Arguments vowel_length {W}.
Arguments tones {W}.
Arguments coda {W}.

Definition IPA_NOTE : string :=
  " This is written with IPA symbols; search IPA(International Phonetic Alphabet) for more information ".

(** How an iteration of a [for] loop ends: it goes on, or the function
    returns from inside the loop. *)
Inductive flow : Type :=
| Next (output : string)
| Return (value : string).

Section NameGen.

Context {W G : Type}.
Variable choices : forall A : Type, list A -> list W -> G -> res (A * G).

(** [output += r.choices(list(d.keys()), weights=d.values())[0]] *)
Definition draw (d : list (string * W)) (output : string) (g : G) : res (string * G) :=
  picked <- choices string (map fst d) (map snd d) g ;;
  Ok (output +:+ fst picked, snd picked).

(** [for _ in range(0, n): body] *)
Fixpoint times (n : nat) (body : string -> G -> res (string * G)) (output : string) (g : G)
    : res (string * G) :=
  match n with
  | O => Ok (output, g)
  | S n' => step <- body output g ;; times n' body (fst step) (snd step)
  end.

(** Lines 23-30: one vowel, its length and its tones. *)
Definition vowel (table : name_table W) (output : string) (g : G) : res (string * G) :=
  step <- draw (nucleus table) output g ;;
  step <- draw (vowel_length table) (fst step) (snd step) ;;
  times (Z.to_nat (snd (vowels table))) (draw (tones table)) (fst step) (snd step).

(** Lines 19-34: the onsets, the vowels and the codas of one syllable. *)
Definition syllable (table : name_table W) (output : string) (g : G) : res (string * G) :=
  step <- times (Z.to_nat (fst (syllable_structures table))) (draw (onset table)) output g ;;
  step <- times (Z.to_nat (fst (vowels table))) (vowel table) (fst step) (snd step) ;;
  times (Z.to_nat (snd (syllable_structures table))) (draw (coda table)) (fst step) (snd step).

(** [for syllable in range(n): body], where the body may return; when the
    loop runs out the function falls off its end and returns [None]. *)
Fixpoint for_syllables (n : nat) (body : string -> G -> res (flow * G)) (output : string)
    (g : G) : res (option string * G) :=
  match n with
  | O => Ok (None, g)
  | S n' =>
      step <- body output g ;;
      match fst step with
      | Next output' => for_syllables n' body output' (snd step)
      | Return value => Ok (Some value, snd step)
      end
  end.

(** [range(1, n + 1)] *)
Definition syllable_counts (n : nat) : list Z := map Z.of_nat (seq 1 n).

Definition name_gen (data : gmap string (gmap string (name_table W)))
    (race gender : string) (g : G) : res (option string * G) :=
  by_gender <- match data !! Str.lower race with
               | Some t => Ok t
               | None => Raise KeyError
               end ;;
  initial <- list_get (Str.chars (Str.lower gender)) 0 ;;
  table <- match by_gender !! initial with
           | Some t => Ok t
           | None => Raise KeyError
           end ;;
  drawn <- choices Z (syllable_counts (length (syl table))) (syl table) g ;;
  let syllables := fst drawn in
  for_syllables (Z.to_nat syllables)
    (fun output g =>
       step <- syllable table output g ;;
       let output := fst step in
       let output := if String.eqb race "human" && (syllables <=? 2)
                     then output +:+ "i" else output in
       let output := output +:+ IPA_NOTE in
       Ok (Return output, snd step))
    EmptyString (snd drawn).

End NameGen.

(** A generator that always picks the first element, and a one-table file. *)
Definition pick_first (A : Type) (population : list A) (weights : list nat) (g : nat)
    : res (A * nat) :=
  match population with
  | x :: _ => Ok (x, S g)
  | [] => Raise IndexError
  end.

Definition sample_table : name_table nat :=
  mkNameTable nat [3; 1]%nat (1, 1) (1, 0)
    [("k"%string, 1%nat)] [("a"%string, 1%nat)] [(EmptyString, 1%nat)] []
    [("n"%string, 1%nat)].

Definition sample_names : gmap string (gmap string (name_table nat)) :=
  {[ "human"%string := {[ "m"%string := sample_table ]} ]}.

(** ** [srd_json.__SRD.__init__]: loading the directory

    A file of the directory is its name and what [json.load] makes of it:
    the records, or the exception of a malformed file.  The files come in
    the order [iterdir] yields them. *)

(** [s.endswith(suffix)] *)
Fixpoint ends_with (suffix s : string) : bool :=
  String.eqb suffix s
  || match s with
     | EmptyString => false
     | String _ rest => ends_with suffix rest
     end.

(** [s[n:]] *)
Fixpoint drop_chars (n : nat) (s : string) : string :=
  match n, s with
  | S n', String _ rest => drop_chars n' rest
  | _, _ => s
  end.

(** [s.replace(old, new)] for a non-empty [old]: the occurrences of [old]
    are replaced from left to right, without overlap.  [fuel] bounds the
    number of steps; the length of [s] is enough. *)
Fixpoint replace_from (fuel : nat) (old new s : string) : string :=
  match fuel with
  | O => s
  | S fuel' =>
      match s with
      | EmptyString => EmptyString
      | String c rest =>
          if String.prefix old s
          then new +:+ replace_from fuel' old new (drop_chars (String.length old) s)
          else String c (replace_from fuel' old new rest)
      end
  end.

Definition replace (old new s : string) : string :=
  replace_from (String.length s) old new s.

(** [file.stem] of a name that ends with ".json": the name without that
    suffix, except that a name that is nothing but ".json" has no suffix. *)
Definition stem (file_name : string) : string :=
  if String.eqb file_name ".json" then file_name
  else String.substring 0 (String.length file_name - 5) file_name.

(** Line 88: the key a file is loaded under. *)
Definition resource_of (file_name : string) : string :=
  Str.lower (replace "5e-SRD-" "" (stem file_name)).

(** Lines 84-91. *)
Fixpoint load_files (files : list (string * res (list json)))
    (raw : gmap string (list json)) : res (gmap string (list json)) :=
  match files with
  | [] => Ok raw
  | (file_name, content) :: rest =>
      if ends_with ".json" file_name
      then records <- content ;; load_files rest (<[resource_of file_name := records]> raw)
      else load_files rest raw
  end.

Definition init (files : list (string * res (list json))) : res SRD :=
  raw <- load_files files ∅ ;; Ok (mkSRD raw).

(** A directory with the spells file and a file that is not JSON. *)
Definition sample_files : list (string * res (list json)) :=
  [("5e-SRD-Spells.json"%string, Ok [fireball]); ("README.md"%string, Raise ValueError)].

(** * Properties *)

(** ** Strings *)

Lemma append_nil_r (s : string) : s +:+ EmptyString = s.
Proof.
  induction s as [|c s IH]; [reflexivity |].
  change (String c (s +:+ EmptyString) = String c s). now rewrite IH.
Qed.

Lemma append_assoc (s t u : string) : (s +:+ t) +:+ u = s +:+ t +:+ u.
Proof.
  induction s as [|c s IH]; [reflexivity |].
  change (String c ((s +:+ t) +:+ u) = String c (s +:+ t +:+ u)). now rewrite IH.
Qed.

Lemma seps_add (j k : nat) : seps (j + k) = seps j +:+ seps k.
Proof.
  induction j as [|j IH]; simpl; [reflexivity |].
  now rewrite IH.
Qed.

Lemma seps_bridge (j k : nat) : seps (S (j + k)) = seps j +:+ PARA +:+ seps k.
Proof. replace (S (j + k)) with (j + S k)%nat by lia. now rewrite seps_add. Qed.

Lemma chain_app (ks ks' : list nat) (ls ls' : list string) :
  length ks = length ls ->
  chain (ks ++ ks') (ls ++ ls') = chain ks ls +:+ chain ks' ls'.
Proof.
  revert ls. induction ks as [|k ks IH]; intros [|l ls] Hlen; simpl in Hlen; try discriminate.
  - reflexivity.
  - injection Hlen as Hlen. cbn [app chain]. rewrite (IH ls Hlen).
    now rewrite !append_assoc.
Qed.

(** ** The collapser *)

Lemma spread_leaf (s : string) : spread [s] s.
Proof.
  exists O, [], O. split; [reflexivity |].
  cbn [seps chain String.append]. now rewrite append_nil_r.
Qed.

Lemma spread_step (ls1 ls2 : list string) (s1 s2 : string) :
  spread ls1 s1 -> spread ls2 s2 -> spread (ls1 ++ ls2) (s1 +:+ PARA +:+ s2).
Proof.
  destruct ls1 as [|l1 ls1]; destruct ls2 as [|l2 ls2]; cbn [spread app].
  - intros [j ->] [k ->]. exists (j + S k)%nat. rewrite seps_add. reflexivity.
  - intros [j ->] (k0 & ks & kn & Hlen & ->).
    exists (j + S k0)%nat, ks, kn. split; [exact Hlen |].
    rewrite seps_add. cbn [seps]. now rewrite !append_assoc.
  - intros (k0 & ks & kn & Hlen & ->) [j ->].
    rewrite app_nil_r. exists k0, ks, (kn + S j)%nat. split; [exact Hlen |].
    rewrite seps_add. cbn [seps]. now rewrite !append_assoc.
  - intros (k0 & ks & kn & Hlen & ->) (j0 & js & jn & Hlen' & ->).
    exists k0, (ks ++ (kn + j0)%nat :: js), jn. split.
    + rewrite !length_app. simpl. now rewrite Hlen, Hlen'.
    + rewrite (chain_app ks ((kn + j0)%nat :: js) ls1 (l2 :: ls2) Hlen).
      cbn [chain]. rewrite seps_bridge. now rewrite !append_assoc.
Qed.

Lemma collapse_loop_spread {B : Type} (leaf : B -> json) (l : list B) :
  Forall (fun x => spread (string_leaves (leaf x)) (collapse (leaf x))) l ->
  forall (ls : list string) (result : string),
    spread ls result ->
    spread (ls ++ flat_map (fun x => string_leaves (leaf x)) l)
      (fold_left (fun result x => result +:+ PARA +:+ collapse (leaf x)) l result).
Proof.
  induction 1 as [|x l Hx _ IH]; intros ls result Hres; cbn [flat_map fold_left].
  - now rewrite app_nil_r.
  - rewrite app_assoc. apply IH. now apply spread_step.
Qed.

Lemma collapse_spread (item : json) : spread (string_leaves item) (collapse item).
Proof.
  induction item as [| b | n | f | s | l IH | d IH] using json_nested_ind;
    try (exists O; reflexivity).
  - apply spread_leaf.
  - cbn [string_leaves collapse].
    apply (collapse_loop_spread (fun x => x) l IH [] EmptyString).
    exists O; reflexivity.
  - cbn [string_leaves collapse].
    apply (collapse_loop_spread snd d IH [] EmptyString).
    exists O; reflexivity.
Qed.

(** ** The disambiguator *)

Section DisambiguatorFacts.

Context {A : Type} (name_of : A -> string).

Lemma str_in_list_lower (request : string) (matches : list A) :
  str_in_list (Str.lower request) (map (fun m => Str.lower (name_of m)) matches)
  = existsb (exact_name name_of request) matches.
Proof.
  unfold str_in_list, exact_name. induction matches as [|m rest IH]; [reflexivity |].
  cbn [map existsb]. rewrite IH. f_equal. apply String.eqb_sym.
Qed.

Lemma index_first_exact (request : string) (matches : list A) (spell : A) :
  find (exact_name name_of request) matches = Some spell ->
  (i <- index (map (fun m => Str.lower (name_of m)) matches) (Str.lower request) ;;
   list_get matches i) = Ok spell.
Proof.
  induction matches as [|m rest IH]; cbn [find map index]; [discriminate |].
  unfold exact_name at 1. destruct (String.eqb (Str.lower (name_of m)) (Str.lower request)).
  - intros [= ->]. reflexivity.
  - intros Hfind. specialize (IH Hfind).
    destruct (index (map (fun m => Str.lower (name_of m)) rest) (Str.lower request))
      as [i | e]; cbn [bind] in *; [exact IH | discriminate].
Qed.

Lemma existsb_find (request : string) (matches : list A) :
  existsb (exact_name name_of request) matches = true ->
  exists spell, find (exact_name name_of request) matches = Some spell.
Proof.
  induction matches as [|m rest IH]; cbn [existsb find]; [discriminate |].
  destruct (exact_name name_of request m); [eauto | exact IH].
Qed.

Lemma find_none_existsb (request : string) (matches : list A) :
  find (exact_name name_of request) matches = None -> existsb (exact_name name_of request) matches = false.
Proof.
  induction matches as [|m rest IH]; cbn [existsb find]; [reflexivity |].
  destruct (exact_name name_of request m); [discriminate | exact IH].
Qed.

(** The selection, read off the code: no exception ever leaves it. *)
Lemma disambiguate_cases (request : string) (matches : list A) :
  disambiguate name_of request matches =
  Ok match matches with
     | [] => NotFound
     | first :: rest =>
         match find (exact_name name_of request) matches with
         | Some spell => Resolved spell
         | None =>
             match rest with
             | [] => Resolved first
             | _ :: _ => Ambiguous (map name_of matches)
             end
         end
     end.
Proof.
  unfold disambiguate. destruct matches as [|first rest]; [reflexivity |].
  rewrite str_in_list_lower.
  destruct (find (exact_name name_of request) (first :: rest)) as [spell |] eqn:Hfind.
  - assert (Hex : existsb (exact_name name_of request) (first :: rest) = true).
    { destruct (existsb (exact_name name_of request) (first :: rest)) eqn:Hex; [reflexivity |].
      apply find_some in Hfind as [Hin Hspell].
      assert (Hyes : existsb (exact_name name_of request) (first :: rest) = true)
        by (apply existsb_exists; eauto).
      congruence. }
    rewrite Hex, andb_false_r. cbn [negb length Nat.eqb].
    pose proof (index_first_exact request (first :: rest) spell Hfind) as Hidx.
    destruct (index _ _) as [i | e]; cbn [bind] in *; [| discriminate].
    now rewrite Hidx.
  - rewrite (find_none_existsb _ _ Hfind). cbn [negb andb length Nat.eqb].
    destruct rest as [|second rest]; reflexivity.
Qed.

End DisambiguatorFacts.

(** C4: when a candidate's lower-cased name equals the lower-cased query,
    the outcome is "resolved", and the record selected is the first candidate
    in the sequence with such a name, whatever else the sequence holds and
    wherever that candidate stands. *)
Theorem disambiguate_prefers_exact_name {A : Type} (name_of : A -> string)
    (request : string) (matches : list A) :
  (exists m, In m matches /\ Str.lower (name_of m) = Str.lower request) ->
  exists spell,
    disambiguate name_of request matches = Ok (Resolved spell)
    /\ In spell matches
    /\ Str.lower (name_of spell) = Str.lower request
    /\ find (exact_name name_of request) matches = Some spell.
Proof.
  intros (m & Hin & Hname).
  assert (Hex : existsb (exact_name name_of request) matches = true).
  { apply existsb_exists. exists m. split; [exact Hin |].
    unfold exact_name. now apply String.eqb_eq. }
  destruct (existsb_find name_of request matches Hex) as [spell Hfind].
  exists spell. rewrite disambiguate_cases, Hfind.
  destruct matches as [|first rest]; [destruct Hin |].
  apply find_some in Hfind as Hspell. destruct Hspell as [Hin' Hexact].
  repeat split; try assumption.
  unfold exact_name in Hexact. now apply String.eqb_eq in Hexact.
Qed.

Lemma disambiguate_prefers_exact_name_witness :
  exists spell,
    disambiguate (fun n : string => n) "mass heal" ["Mass Healing Word"; "Mass Heal"]%string
    = Ok (Resolved spell)
    /\ In spell ["Mass Healing Word"; "Mass Heal"]%string
    /\ Str.lower spell = Str.lower "mass heal"
    /\ find (exact_name (fun n : string => n) "mass heal")
         ["Mass Healing Word"; "Mass Heal"]%string = Some spell.
Proof.
  apply (disambiguate_prefers_exact_name (fun n : string => n)).
  exists "Mass Heal"%string. split; [right; left; reflexivity | reflexivity].
Defined.

(** The end-to-end case of the specification, by evaluation. *)
Example mass_heal_resolved :
  disambiguate (fun n : string => n) "mass heal" ["Mass Heal"; "Mass Healing Word"]%string
  = Ok (Resolved "Mass Heal"%string).
Proof. reflexivity. Qed.

(** C8: one evaluation ends in exactly one of three outcomes.  No match:
    "not found".  Several matches and none named exactly like the query:
    "ambiguous", with the candidates' names in order.  Otherwise (a single
    match, or some exact name): "resolved" to one of the matches. *)
Theorem disambiguate_three_outcomes {A : Type} (name_of : A -> string)
    (request : string) (matches : list A) :
  (matches = [] -> disambiguate name_of request matches = Ok NotFound)
  /\ ((1 < length matches)%nat ->
      existsb (exact_name name_of request) matches = false ->
      disambiguate name_of request matches = Ok (Ambiguous (map name_of matches)))
  /\ (matches <> [] ->
      length matches = 1%nat \/ existsb (exact_name name_of request) matches = true ->
      exists spell,
        disambiguate name_of request matches = Ok (Resolved spell) /\ In spell matches).
Proof.
  rewrite disambiguate_cases. repeat split.
  - now intros ->.
  - intros Hlen Hnone. destruct matches as [|first [|second rest]]; simpl in Hlen; try lia.
    destruct (find (exact_name name_of request) (first :: second :: rest)) as [spell |] eqn:Hfind;
      [| reflexivity].
    apply find_some in Hfind as [Hin Hspell].
    assert (existsb (exact_name name_of request) (first :: second :: rest) = true)
      by (apply existsb_exists; eauto).
    congruence.
  - intros Hne Hcase. destruct matches as [|first rest]; [congruence |].
    destruct (find (exact_name name_of request) (first :: rest)) as [spell |] eqn:Hfind.
    + exists spell. split; [reflexivity |]. now apply find_some in Hfind.
    + apply find_none_existsb in Hfind. destruct Hcase as [Hone | Hsome]; [| congruence].
      destruct rest; [| discriminate]. exists first. split; [reflexivity | now left].
Qed.

Lemma disambiguate_three_outcomes_witness :
  disambiguate (fun n : string => n) "wish" [] = Ok NotFound
  /\ disambiguate (fun n : string => n) "mass" ["Mass Heal"; "Mass Healing Word"]%string
     = Ok (Ambiguous ["Mass Heal"; "Mass Healing Word"]%string)
  /\ exists spell,
       disambiguate (fun n : string => n) "heal" ["Mass Heal"]%string = Ok (Resolved spell)
       /\ In spell ["Mass Heal"]%string.
Proof.
  split; [| split].
  - apply (disambiguate_three_outcomes (fun n : string => n) "wish" []). reflexivity.
  - apply (disambiguate_three_outcomes (fun n : string => n) "mass"
             ["Mass Heal"; "Mass Healing Word"]%string); [simpl; lia | reflexivity].
  - apply (disambiguate_three_outcomes (fun n : string => n) "heal" ["Mass Heal"]%string);
      [discriminate | left; reflexivity].
Defined.

(** C7 (amended): the collapsed text holds every string leaf, in traversal
    order, with at least one paragraph separator between two neighbouring
    leaves; every element of a list and every value of a mapping is preceded
    by a separator, so separators may also open and close the text, and a
    value without string leaves collapses to separators only: to the empty
    string for a scalar that is not a string and for an empty list or
    mapping.  The example value collapses to the leaves x, y, z in that
    order. *)
Theorem collapse_leaves_in_order (item : json) :
  spread (string_leaves item) (collapse item)
  /\ collapse JNull = EmptyString
  /\ (forall b, collapse (JBool b) = EmptyString)
  /\ (forall n, collapse (JInt n) = EmptyString)
  /\ (forall f, collapse (JFloat f) = EmptyString)
  /\ collapse (JList []) = EmptyString
  /\ collapse (JDict []) = EmptyString
  /\ string_leaves nested_example = ["x"; "y"; "z"]%string
  /\ collapse nested_example = PARA +:+ "x" +:+ PARA +:+ PARA +:+ "y" +:+ PARA +:+ "z".
Proof.
  split; [apply collapse_spread |].
  repeat split.
Qed.

(** C7 as stated fails: a list holding only [None] has no string leaf and
    collapses to one separator, not to the empty string; and the example
    value does not collapse to its leaves joined by the separator. *)
Lemma collapse_without_strings_not_empty :
  string_leaves (JList [JNull]) = []
  /\ collapse (JList [JNull]) = PARA
  /\ collapse (JList [JNull]) <> EmptyString
  /\ collapse nested_example <> Str.join PARA (string_leaves nested_example).
Proof. repeat split; discriminate. Qed.

(** ** The search engine *)

Lemma search_loaded (self : SRD) (resource attr request : string) (trunc : Z)
    (target : list json) :
  raw self !! resource = Some target ->
  first_has attr target ->
  search self resource attr request trunc =
  (found <- scan attr request trunc target [] ;; Ok (Pair (fst found) (snd found))).
Proof.
  intros Hraw (first & Hfirst & Hattr).
  unfold search, raw_get. rewrite Hraw, Hfirst. cbn [bind]. rewrite Hattr. reflexivity.
Qed.

(** C1: a resource name that names no loaded table makes [search] raise
    [KeyError]: the [except ValueError] clause around the table lookup does
    not catch the [KeyError] of a missing dict key. *)
Theorem search_unknown_resource_raises (self : SRD) (resource attr request : string)
    (trunc : Z) :
  raw self !! resource = None ->
  search self resource attr request trunc = Raise KeyError.
Proof.
  intros Hraw. unfold search, raw_get. rewrite Hraw. reflexivity.
Qed.

Lemma search_unknown_resource_raises_witness :
  search spells_only "monsters" "name" "dragon" 5 = Raise KeyError.
Proof.
  apply (search_unknown_resource_raises spells_only "monsters" "name" "dragon" 5).
  reflexivity.
Defined.

(** C5: an attribute absent from the first record of a loaded table makes
    [search] return the bare empty list of its early exit, which is not the
    pair [(results, truncated)] the end of the function returns. *)
Theorem search_unknown_attribute_bare_list (self : SRD) (resource attr request : string)
    (trunc : Z) (target : list json) (first : json) :
  raw self !! resource = Some target ->
  list_get target 0 = Ok first ->
  contains attr first = Ok false ->
  search self resource attr request trunc = Ok (Bare [])
  /\ search self resource attr request trunc <> Ok (Pair [] false).
Proof.
  intros Hraw Hfirst Hattr.
  assert (H : search self resource attr request trunc = Ok (Bare [])).
  { unfold search, raw_get. rewrite Hraw, Hfirst. cbn [bind]. rewrite Hattr. reflexivity. }
  split; [exact H |]. rewrite H. discriminate.
Qed.

Lemma search_unknown_attribute_bare_list_witness :
  search spells_only "spells" "damage" "fire" 5 = Ok (Bare [])
  /\ search spells_only "spells" "damage" "fire" 5 <> Ok (Pair [] false).
Proof.
  apply (search_unknown_attribute_bare_list spells_only "spells" "damage" "fire" 5
           [fireball] fireball); reflexivity.
Defined.

(** *** The scan *)

Lemma readable_value (attr : string) (item : json) :
  readable attr item = true -> exists value, getitem item attr = Ok value.
Proof.
  unfold readable. destruct (getitem item attr) as [value | e]; [eauto | discriminate].
Qed.

Lemma map_res_cons {A B : Type} (f : A -> res B) (x : A) (l : list A) (ys : list B) :
  map_res f (x :: l) = Ok ys ->
  exists y ys', f x = Ok y /\ map_res f l = Ok ys' /\ ys = y :: ys'.
Proof.
  cbn [map_res]. destruct (f x) as [y | e]; cbn [bind]; [| discriminate].
  destruct (map_res f l) as [ys' | e]; cbn [bind]; [| discriminate].
  intros [= <-]. eauto.
Qed.

Lemma map_res_length {A B : Type} (f : A -> res B) (l : list A) (ys : list B) :
  map_res f l = Ok ys -> length ys = length l.
Proof.
  revert ys. induction l as [|x l IH]; intros ys H.
  - now injection H as <-.
  - apply map_res_cons in H as (y & ys' & _ & Hl & ->). cbn [length]. now rewrite (IH ys').
Qed.

Section Scan.

Variables (attr request : string) (trunc : Z).

(** One record that does not match: the scan moves on. *)
Lemma scan_miss (item : json) (rest : list json) (results : list SpellInfo) :
  readable attr item = true ->
  hit attr request item = false ->
  scan attr request trunc (item :: rest) results = scan attr request trunc rest results.
Proof.
  intros Hread Hhit. apply readable_value in Hread as [value Hvalue].
  unfold hit in Hhit. cbn [scan]. rewrite Hvalue in *. cbn [bind]. now rewrite Hhit.
Qed.

(** One record that matches: it is formatted and appended, then the length
    of the result is compared with the limit. *)
Lemma scan_hit (item : json) (rest : list json) (results : list SpellInfo)
    (info : SpellInfo) :
  hit attr request item = true ->
  get_spell_info item = Ok info ->
  scan attr request trunc (item :: rest) results =
  if negb (trunc =? 0) && (trunc <? Z.of_nat (length (results ++ [info])))
  then Ok (results ++ [info], true)
  else scan attr request trunc rest (results ++ [info]).
Proof.
  intros Hhit Hinfo. unfold hit in Hhit. cbn [scan].
  destruct (getitem item attr) as [value | e]; [| discriminate].
  cbn [bind]. rewrite Hhit, Hinfo. reflexivity.
Qed.

(** A record whose attribute cannot be read stops the scan with the
    exception of the failed lookup. *)
Lemma scan_unreadable (item : json) (rest : list json) (results : list SpellInfo)
    (e : exn) :
  getitem item attr = Raise e ->
  scan attr request trunc (item :: rest) results = Raise e.
Proof. intros H. cbn [scan]. now rewrite H. Qed.

(** A matching record that does not format stops the scan as well. *)
Lemma scan_unformattable (item : json) (rest : list json) (results : list SpellInfo)
    (e : exn) :
  hit attr request item = true ->
  get_spell_info item = Raise e ->
  scan attr request trunc (item :: rest) results = Raise e.
Proof.
  intros Hhit Hinfo. unfold hit in Hhit. cbn [scan].
  destruct (getitem item attr) as [value | e']; [| discriminate].
  cbn [bind]. now rewrite Hhit, Hinfo.
Qed.

(** While the result stays within the limit the scan walks on: a prefix of
    the table is consumed and its matches are appended in table order. *)
Lemma scan_prefix (pre rest : list json) :
  forallb (readable attr) pre = true ->
  forall (results infos : list SpellInfo),
    map_res get_spell_info (List.filter (hit attr request) pre) = Ok infos ->
    trunc = 0 \/ infos = [] \/ Z.of_nat (length results + length infos) <= trunc ->
    scan attr request trunc (pre ++ rest) results
    = scan attr request trunc rest (results ++ infos).
Proof.
  induction pre as [|item pre IH]; intros Hread results infos Hinfos Hroom.
  - injection Hinfos as <-. now rewrite app_nil_r.
  - cbn [forallb] in Hread. apply andb_prop in Hread as [Hitem Hpre].
    cbn [app List.filter] in *. destruct (hit attr request item) eqn:Hhit.
    + apply map_res_cons in Hinfos as (info & infos' & Hinfo & Hrest & ->).
      rewrite (scan_hit item (pre ++ rest) results info Hhit Hinfo).
      rewrite length_app. cbn [length] in *.
      replace (negb (trunc =? 0) && (trunc <? Z.of_nat (length results + 1)))
        with false.
      * rewrite (IH Hpre (results ++ [info]) infos' Hrest).
        -- now rewrite <- app_assoc.
        -- rewrite length_app. cbn [length].
           destruct Hroom as [? | [? | ?]]; [now left | discriminate | right; right; lia].
      * symmetry. destruct Hroom as [-> | [? | Hle]]; [reflexivity | discriminate |].
        apply andb_false_iff. right. apply Z.ltb_ge. lia.
    + rewrite (scan_miss item (pre ++ rest) results Hitem Hhit).
      now apply IH.
Qed.

(** The match that makes the result longer than a nonzero limit ends the
    scan: what follows it in the table is not looked at. *)
Lemma scan_stop (item : json) (post : list json) (results : list SpellInfo)
    (info : SpellInfo) :
  hit attr request item = true ->
  get_spell_info item = Ok info ->
  trunc <> 0 ->
  trunc < Z.of_nat (length results) + 1 ->
  scan attr request trunc (item :: post) results = Ok (results ++ [info], true).
Proof.
  intros Hhit Hinfo Hnz Hfull.
  rewrite (scan_hit item post results info Hhit Hinfo).
  rewrite length_app. cbn [length].
  replace (trunc =? 0) with false by (symmetry; now apply Z.eqb_neq).
  replace (trunc <? Z.of_nat (length results + 1)) with true
    by (symmetry; apply Z.ltb_lt; lia).
  reflexivity.
Qed.

(** The whole scan from the empty result, when every record can be read and
    every match formats. *)
Lemma scan_from (target : list json) :
  forallb (readable attr) target = true ->
  forall (results infos : list SpellInfo),
    map_res get_spell_info (List.filter (hit attr request) target) = Ok infos ->
    results = [] \/ trunc = 0 \/ Z.of_nat (length results) <= trunc ->
    let room := if trunc =? 0 then length infos
                else Z.to_nat (Z.max 1 (trunc + 1 - Z.of_nat (length results))) in
    scan attr request trunc target results
    = Ok (results ++ firstn room infos,
          negb (trunc =? 0) && (room <=? length infos)%nat).
Proof.
  induction target as [|item target IH]; intros Hread results infos Hinfos Hinv room.
  - injection Hinfos as <-. subst room. cbn [scan]. rewrite firstn_nil, app_nil_r.
    destruct (trunc =? 0); [reflexivity |]. cbn [negb andb length].
    replace (_ <=? 0)%nat with false; [reflexivity |].
    symmetry. apply Nat.leb_gt. lia.
  - cbn [forallb] in Hread. apply andb_prop in Hread as [Hitem Hpre].
    cbn [List.filter] in Hinfos. destruct (hit attr request item) eqn:Hhit.
    + apply map_res_cons in Hinfos as (info & infos' & Hinfo & Hrest & ->).
      rewrite (scan_hit item target results info Hhit Hinfo).
      rewrite length_app. cbn [length] in *.
      destruct (trunc =? 0) eqn:Hzero.
      * cbn [negb andb]. subst room.
        specialize (IH Hpre (results ++ [info]) infos' Hrest).
        cbn zeta in IH. rewrite ?Hzero in IH. rewrite IH.
        -- cbn [negb andb firstn]. rewrite !firstn_all. now rewrite <- app_assoc.
        -- right; left. now apply Z.eqb_eq.
      * cbn [negb andb]. apply Z.eqb_neq in Hzero.
        destruct (trunc <? Z.of_nat (length results + 1)) eqn:Hfull.
        -- apply Z.ltb_lt in Hfull.
           assert (Hroom : room = 1%nat).
           { subst room. destruct Hinv as [-> | [? | ?]]; [cbn [length] in *| lia |]; lia. }
           rewrite Hroom. cbn [firstn]. reflexivity.
        -- apply Z.ltb_ge in Hfull.
           specialize (IH Hpre (results ++ [info]) infos' Hrest).
           cbn zeta in IH.
           rewrite IH by (right; right; rewrite length_app; cbn [length]; lia).
           rewrite length_app. cbn [length negb andb].
           assert (Hroom : room = S (Z.to_nat (Z.max 1
                      (trunc + 1 - Z.of_nat (length results + 1))))) by (subst room; lia).
           rewrite Hroom. cbn [firstn]. rewrite <- app_assoc. reflexivity.
    + rewrite (scan_miss item target results Hitem Hhit). now apply IH.
Qed.

End Scan.

Lemma map_res_snoc {A B : Type} (f : A -> res B) (l : list A) (x : A) (ys : list B) :
  map_res f (l ++ [x]) = Ok ys ->
  exists ys' y, map_res f l = Ok ys' /\ f x = Ok y /\ ys = ys' ++ [y].
Proof.
  revert ys. induction l as [|z l IH]; intros ys H.
  - apply map_res_cons in H as (y & ys' & Hx & Hnil & ->).
    injection Hnil as <-. exists [], y. auto.
  - cbn [app] in H. apply map_res_cons in H as (y & zs & Hz & Hl & ->).
    destruct (IH zs Hl) as (ys' & y' & Hl' & Hx & ->).
    exists (y :: ys'), y'. cbn [map_res]. rewrite Hz, Hl'. auto.
Qed.

Lemma hit_lower_request (attr request : string) (item : json) :
  Str.lower request = request -> hit attr request item = matches_ci attr request item.
Proof. intros H. unfold hit, matches_ci. now rewrite H. Qed.

(** The search on a loaded table whose records can all be read and whose
    matches all format: the matches in table order, cut right after the
    first one that makes the result longer than a nonzero limit. *)
Lemma search_spec (self : SRD) (resource attr request : string) (trunc : Z)
    (target : list json) (infos : list SpellInfo) :
  raw self !! resource = Some target ->
  first_has attr target ->
  forallb (readable attr) target = true ->
  map_res get_spell_info (List.filter (hit attr request) target) = Ok infos ->
  let room := if trunc =? 0 then length infos else Z.to_nat (Z.max 1 (trunc + 1)) in
  search self resource attr request trunc
  = Ok (Pair (firstn room infos) (negb (trunc =? 0) && (room <=? length infos)%nat)).
Proof.
  intros Hraw Hfirst Hread Hinfos room.
  rewrite (search_loaded self resource attr request trunc target Hraw Hfirst).
  pose proof (scan_from attr request trunc target Hread [] infos Hinfos (or_introl eq_refl))
    as Hscan.
  cbn zeta in Hscan. cbn [length app] in Hscan. rewrite Z.sub_0_r in Hscan.
  rewrite Hscan. reflexivity.
Qed.

(** C10: with limit 0 nothing is cut: every record of the table is scanned,
    all matching records are returned in table order and the flag is false,
    however many records match. *)
Theorem search_limit_zero_never_truncates (self : SRD) (resource attr request : string)
    (target : list json) (infos : list SpellInfo) :
  raw self !! resource = Some target ->
  first_has attr target ->
  forallb (readable attr) target = true ->
  map_res get_spell_info (List.filter (hit attr request) target) = Ok infos ->
  search self resource attr request 0 = Ok (Pair infos false)
  /\ length infos = length (List.filter (hit attr request) target).
Proof.
  intros Hraw Hfirst Hread Hinfos.
  rewrite (search_spec self resource attr request 0 target infos Hraw Hfirst Hread Hinfos).
  cbn [Z.eqb negb andb]. rewrite firstn_all.
  split; [reflexivity | now apply map_res_length in Hinfos].
Qed.

Lemma search_limit_zero_never_truncates_witness :
  exists a b c,
    search fire_spells "spells" "name" "fire" 0 = Ok (Pair [a; b; c] false)
    /\ length [a; b; c] = length (List.filter (hit "name" "fire") fire_table).
Proof.
  destruct (get_spell_info fireball) as [a |] eqn:Ha; [| discriminate].
  destruct (get_spell_info fire_bolt) as [b |] eqn:Hb; [| discriminate].
  destruct (get_spell_info wall_of_fire) as [c |] eqn:Hc; [| discriminate].
  exists a, b, c.
  apply (search_limit_zero_never_truncates fire_spells "spells" "name" "fire" fire_table).
  - reflexivity.
  - exists fireball. split; reflexivity.
  - reflexivity.
  - change (List.filter (hit "name" "fire") fire_table) with fire_table.
    unfold fire_table. cbn [map_res]. rewrite Ha, Hb, Hc. reflexivity.
Defined.

(** With limit 0 the scan reaches every record: one whose attribute cannot
    be read, wherever it stands, makes the search raise. *)
Lemma search_limit_zero_reaches_every_record (self : SRD) (resource attr request : string)
    (pre post : list json) (item : json) (infos : list SpellInfo) (e : exn) :
  raw self !! resource = Some (pre ++ item :: post) ->
  first_has attr (pre ++ item :: post) ->
  forallb (readable attr) pre = true ->
  map_res get_spell_info (List.filter (hit attr request) pre) = Ok infos ->
  getitem item attr = Raise e ->
  search self resource attr request 0 = Raise e.
Proof.
  intros Hraw Hfirst Hread Hinfos Hitem.
  rewrite (search_loaded self resource attr request 0 _ Hraw Hfirst).
  rewrite (scan_prefix attr request 0 pre (item :: post) Hread [] infos Hinfos)
    by now left.
  now rewrite (scan_unreadable attr request 0 item post _ e Hitem).
Qed.

(** C3 (amended): for every positive limit.  When the record at which the
    scan stands is the match number limit+1, the search returns there: the
    limit+1 matches found so far with truncated=true, whatever the rest of
    the table holds.  So a query matching more than limit records yields
    exactly the first limit+1 matches, and one matching at most limit
    records yields all of them with truncated=false. *)
Theorem search_truncates_after_limit (self : SRD) (resource attr request : string)
    (trunc : Z) (target : list json) :
  raw self !! resource = Some target ->
  first_has attr target ->
  0 < trunc ->
  (forall pre item post infos,
      target = pre ++ item :: post ->
      forallb (readable attr) pre = true ->
      hit attr request item = true ->
      Z.of_nat (length (List.filter (hit attr request) pre)) = trunc ->
      map_res get_spell_info (List.filter (hit attr request) pre ++ [item]) = Ok infos ->
      search self resource attr request trunc = Ok (Pair infos true)
      /\ Z.of_nat (length infos) = trunc + 1)
  /\ (forall infos,
      forallb (readable attr) target = true ->
      map_res get_spell_info (List.filter (hit attr request) target) = Ok infos ->
      (trunc < Z.of_nat (length infos) ->
       search self resource attr request trunc
       = Ok (Pair (firstn (Z.to_nat (trunc + 1)) infos) true)
       /\ Z.of_nat (length (firstn (Z.to_nat (trunc + 1)) infos)) = trunc + 1)
      /\ (Z.of_nat (length infos) <= trunc ->
          search self resource attr request trunc = Ok (Pair infos false))).
Proof.
  intros Hraw Hfirst Hpos. split.
  - intros pre item post infos -> Hread Hhit Hcount Hinfos.
    apply map_res_snoc in Hinfos as (infos' & info & Hpre & Hinfo & ->).
    pose proof (map_res_length _ _ _ Hpre) as Hlen.
    rewrite (search_loaded self resource attr request trunc _ Hraw Hfirst).
    rewrite (scan_prefix attr request trunc pre (item :: post) Hread [] infos' Hpre)
      by (right; right; cbn [length]; lia).
    rewrite (scan_stop attr request trunc item post ([] ++ infos') info Hhit Hinfo)
      by (cbn [app]; lia).
    cbn [bind fst snd app]. split; [reflexivity |].
    rewrite length_app. cbn [length]. lia.
  - intros infos Hread Hinfos.
    pose proof (search_spec self resource attr request trunc target infos
                  Hraw Hfirst Hread Hinfos) as Hsearch.
    cbn zeta in Hsearch.
    replace (trunc =? 0) with false in Hsearch by (symmetry; apply Z.eqb_neq; lia).
    replace (Z.max 1 (trunc + 1)) with (trunc + 1) in Hsearch by lia.
    cbn [negb andb] in Hsearch. split.
    + intros Hmore. rewrite Hsearch.
      replace (Z.to_nat (trunc + 1) <=? length infos)%nat with true
        by (symmetry; apply Nat.leb_le; lia).
      split; [reflexivity |]. rewrite length_firstn. lia.
    + intros Hfew. rewrite Hsearch.
      replace (Z.to_nat (trunc + 1) <=? length infos)%nat with false
        by (symmetry; apply Nat.leb_gt; lia).
      rewrite firstn_all2 by lia. reflexivity.
Qed.

Lemma search_truncates_after_limit_witness :
  (exists a b,
      search fire_spells "spells" "name" "fire" 1 = Ok (Pair [a; b] true)
      /\ Z.of_nat (length [a; b]) = 1 + 1)
  /\ (exists a b c,
      search fire_spells "spells" "name" "fire" 5 = Ok (Pair [a; b; c] false)).
Proof.
  destruct (get_spell_info fireball) as [a |] eqn:Ha; [| discriminate].
  destruct (get_spell_info fire_bolt) as [b |] eqn:Hb; [| discriminate].
  destruct (get_spell_info wall_of_fire) as [c |] eqn:Hc; [| discriminate].
  assert (Hfirst : first_has "name" fire_table)
    by (exists fireball; split; reflexivity).
  split.
  - exists a, b.
    apply (proj1 (search_truncates_after_limit fire_spells "spells" "name" "fire" 1
                    fire_table eq_refl Hfirst eq_refl)
             [fireball] fire_bolt [wall_of_fire]); try reflexivity.
    change (List.filter (hit "name" "fire") [fireball] ++ [fire_bolt])
      with [fireball; fire_bolt].
    cbn [map_res]. rewrite Ha, Hb. reflexivity.
  - exists a, b, c.
    apply (proj2 (search_truncates_after_limit fire_spells "spells" "name" "fire" 5
                    fire_table eq_refl Hfirst eq_refl) [a; b; c]).
    + reflexivity.
    + change (List.filter (hit "name" "fire") fire_table) with fire_table.
      unfold fire_table. cbn [map_res]. rewrite Ha, Hb, Hc. reflexivity.
    + cbn [length]. lia.
Defined.

(** C3 as stated fails for a negative limit: with limit -1 the one matching
    record is returned with truncated=true, where limit+1 = 0 matches were
    promised. *)
Lemma search_negative_limit_keeps_one_match :
  exists info,
    search spells_only "spells" "name" "fire" (-1) = Ok (Pair [info] true)
    /\ -1 <> 0
    /\ -1 < Z.of_nat (length (List.filter (hit "name" "fire") [fireball]))
    /\ Z.of_nat (length [info]) <> -1 + 1.
Proof.
  destruct (get_spell_info fireball) as [info |] eqn:Hinfo; [| discriminate].
  exists info. repeat split; try discriminate.
  unfold search, raw_get. change (raw spells_only !! "spells"%string) with (Some [fireball]).
  cbn [list_get nth_error bind]. change (contains "name" fireball) with (Ok true : res bool).
  cbn [bind negb].
  rewrite (scan_stop "name" "fire" (-1) fireball [] [] info eq_refl Hinfo) by lia.
  reflexivity.
Qed.

(** C2 (amended): on a loaded table whose records all carry the attribute
    and whose matches format, a query already in lower case is tested as a
    substring of the lower-cased collapsed attribute of each record in table
    order: the matches returned are a leading part of the formatted matching
    records in table order, and all of them, with truncated=false, when the
    limit is 0 or at most limit records match. *)
Theorem search_matches_in_table_order (self : SRD) (resource attr request : string)
    (trunc : Z) (target : list json) (infos : list SpellInfo) :
  raw self !! resource = Some target ->
  first_has attr target ->
  forallb (readable attr) target = true ->
  Str.lower request = request ->
  map_res get_spell_info (List.filter (matches_ci attr request) target) = Ok infos ->
  (exists n b, search self resource attr request trunc = Ok (Pair (firstn n infos) b))
  /\ (trunc = 0 \/ Z.of_nat (length infos) <= trunc ->
      search self resource attr request trunc = Ok (Pair infos false)).
Proof.
  intros Hraw Hfirst Hread Hlower Hinfos.
  rewrite <- (filter_ext (hit attr request) (matches_ci attr request)
                (fun item => hit_lower_request attr request item Hlower)) in Hinfos.
  pose proof (search_spec self resource attr request trunc target infos
                Hraw Hfirst Hread Hinfos) as Hsearch.
  cbn zeta in Hsearch. split; [eauto |].
  intros Hall. rewrite Hsearch. destruct (trunc =? 0) eqn:Hzero.
  - now rewrite firstn_all.
  - apply Z.eqb_neq in Hzero. destruct Hall as [? | Hfew]; [contradiction |].
    replace (_ <=? _)%nat with false by (symmetry; apply Nat.leb_gt; lia).
    rewrite firstn_all2 by lia. reflexivity.
Qed.

Lemma search_matches_in_table_order_witness :
  exists info,
    get_spell_info fireball = Ok info
    /\ (exists n b,
           search spells_only "spells" "name" "fireball" 5 = Ok (Pair (firstn n [info]) b))
    /\ (5 = 0 \/ Z.of_nat (length [info]) <= 5 ->
        search spells_only "spells" "name" "fireball" 5 = Ok (Pair [info] false)).
Proof.
  destruct (get_spell_info fireball) as [info |] eqn:Hinfo; [| discriminate].
  exists info. split; [reflexivity |].
  apply (search_matches_in_table_order spells_only "spells" "name" "fireball" 5 [fireball]).
  - reflexivity.
  - exists fireball. split; reflexivity.
  - reflexivity.
  - reflexivity.
  - change (List.filter (matches_ci "name" "fireball") [fireball]) with [fireball].
    cbn [map_res]. rewrite Hinfo. reflexivity.
Defined.

(** The end-to-end case of the specification for the lower-case query. *)
Example search_fireball_lower_case :
  exists info,
    search spells_only "spells" "name" "fireball" 5 = Ok (Pair [info] false)
    /\ name info = JStr "Fireball"
    /\ subhead info = "3rd-level evocation"%string.
Proof. eexists. repeat split. Qed.

(** C2 as stated fails twice.  The query is not lower-cased before the test:
    "Fireball", which matches the record named "Fireball" case-insensitively,
    finds nothing.  And with a nonzero limit the scan does not visit every
    record: with limit 1, three matching records yield two matches. *)
Lemma search_query_case_and_limit :
  matches_ci "name" "Fireball" fireball = true
  /\ search spells_only "spells" "name" "Fireball" 5 = Ok (Pair [] false)
  /\ List.filter (matches_ci "name" "fire") fire_table = fire_table
  /\ exists a b, search fire_spells "spells" "name" "fire" 1 = Ok (Pair [a; b] true).
Proof.
  split; [reflexivity |]. split; [reflexivity |]. split; [reflexivity |].
  eexists. eexists. reflexivity.
Qed.

(** ** The formatter *)

Lemma bind_ok {A B : Type} (m : res A) (k : A -> res B) (b : B) :
  bind m k = Ok b -> exists a, m = Ok a /\ k a = Ok b.
Proof. destruct m as [a | e]; cbn [bind]; [eauto | discriminate]. Qed.

Lemma add_paragraphs_strings (paras : list json) (text : string) :
  forallb is_str paras = true -> exists t, add_paragraphs (JStr text) paras = Ok (JStr t).
Proof.
  revert text. induction paras as [|para paras IH]; intros text Hstr; cbn [add_paragraphs].
  - eauto.
  - cbn [forallb] in Hstr. apply andb_prop in Hstr as [Hpara Hparas].
    destruct para; try discriminate. cbn [as_str bind iadd_str]. now apply IH.
Qed.

Lemma list_to_paragraphs_total (v : json) :
  paragraphs v = true -> exists t, list_to_paragraphs v = Ok (JStr t).
Proof.
  destruct v as [| | | | | [|p ps] |]; try discriminate. cbn [paragraphs].
  intros H. apply andb_prop in H as [Hp Hps]. destruct p; try discriminate.
  unfold list_to_paragraphs. cbn [first_item list_get nth_error bind len rest_items tl].
  destruct (1 <? _); [now apply add_paragraphs_strings | eauto].
Qed.

Lemma ordinal_abbrev (n : Z) :
  1 <= n <= 9 -> num_abbrev (JInt n) = Ok (ordinal n).
Proof.
  intros Hn.
  assert (H : n = 1 \/ n = 2 \/ n = 3 \/ n = 4 \/ n = 5 \/ n = 6 \/ n = 7 \/ n = 8 \/ n = 9)
    by lia.
  repeat (destruct H as [-> | H]; [reflexivity |]). now subst.
Qed.

(** The subhead of a record whose level, school and ritual fields have the
    shape of the schema. *)
Lemma spell_subhead_shaped (spell : json) (n : Z) (school : string) :
  level_shaped spell = true ->
  getitem spell "level" = Ok (JInt n) ->
  school_name spell = Ok (JStr school) ->
  exists text,
    spell_subhead spell = Ok text
    /\ (n = 0 -> text = school +:+ " cantrip")
    /\ (1 <= n ->
        forall ritual, getitem spell "ritual" = Ok ritual ->
        text = ordinal n +:+ "-level " +:+ Str.lower school
                 +:+ (if eq_str ritual "yes" then " (ritual)" else "")).
Proof.
  unfold level_shaped, spell_subhead. intros Hshape Hlevel Hschool.
  rewrite Hlevel in *. cbn [bind eq_zero]. rewrite Hschool.
  apply andb_prop in Hshape as [Hrange Hritual]. apply andb_prop in Hrange as [Hlo Hhi].
  apply Z.leb_le in Hlo, Hhi.
  destruct (n =? 0) eqn:Hzero.
  - apply Z.eqb_eq in Hzero. cbn [bind as_str]. eexists. split; [reflexivity |].
    split; [reflexivity | lia].
  - apply Z.eqb_neq in Hzero. cbn [orb] in Hritual.
    rewrite (ordinal_abbrev n) by lia. cbn [bind lower_value].
    unfold has in Hritual. destruct (getitem spell "ritual") as [ritual | e]; [| discriminate].
    cbn [bind]. exists (if eq_str ritual "yes"
                        then ((ordinal n +:+ "-level ") +:+ Str.lower school) +:+ " (ritual)"
                        else (ordinal n +:+ "-level ") +:+ Str.lower school).
    split; [now destruct (eq_str ritual "yes") |].
    split; [lia |]. intros _ ritual' [= <-].
    destruct (eq_str ritual "yes"); rewrite ?append_assoc, ?append_nil_r; reflexivity.
Qed.

Lemma spell_components_total (spell : json) :
  components_shaped spell = true -> exists text, spell_components spell = Ok text.
Proof.
  unfold components_shaped, spell_components.
  destruct (getitem spell "components") as [[| | | | | parts |] | e]; try discriminate.
  intros H. apply andb_prop in H as [_ H]. cbn [bind].
  destruct (join_value ", " (JList parts)) as [joined | e]; [| discriminate]. cbn [bind].
  destruct (Str.contains "M" joined); [| eauto]. cbn [negb orb] in H.
  destruct (getitem spell "material") as [[| | | | s | |] | e]; try discriminate.
  cbn [bind as_str]. eauto.
Qed.

Lemma contains_key_get (d : list (string * json)) (key : string) :
  existsb (fun kv => String.eqb (fst kv) key) d
  = match dict_get d key with Some _ => true | None => false end.
Proof.
  induction d as [|[k v] d IH]; [reflexivity |]. cbn [existsb dict_get fst].
  destruct (String.eqb k key); [reflexivity | exact IH].
Qed.

Lemma spell_higher_levels_total (spell : json) :
  higher_level_shaped spell = true -> exists text, spell_higher_levels spell = Ok text.
Proof.
  unfold higher_level_shaped, spell_higher_levels. destruct spell; try discriminate.
  cbn [contains bind getitem]. rewrite contains_key_get.
  destruct (dict_get entries "higher_level") as [v |]; [| eauto].
  intros Hv. destruct (list_to_paragraphs_total v Hv) as [t Ht].
  cbn [bind]. rewrite Ht. cbn [bind]. eauto.
Qed.

Lemma spell_page_total (spell : json) :
  page_shaped spell = true -> exists token, spell_page spell = Ok token.
Proof.
  unfold page_shaped, spell_page.
  destruct (getitem spell "page") as [[| | | | s | |] | e]; try discriminate. cbn [bind].
  destruct (Str.split s) as [|w ws] eqn:Hsplit; [discriminate |]. intros _.
  destruct (rev (w :: ws)) as [|token rest] eqn:Hrev; [| eauto].
  apply (f_equal (@length string)) in Hrev. rewrite length_rev in Hrev. discriminate.
Qed.

(** C6: on a record of the spell schema the formatter returns, and the
    subhead it builds is "<School> cantrip" for level 0 and, for a level N
    from 1 on, "<Nth>-level <school>" with the school in lower case,
    followed by " (ritual)" exactly when the ritual field is "yes". *)
Theorem get_spell_info_subhead (spell : json) (n : Z) (school : string) :
  spell_shaped spell = true ->
  getitem spell "level" = Ok (JInt n) ->
  school_name spell = Ok (JStr school) ->
  exists info,
    get_spell_info spell = Ok info
    /\ (n = 0 -> subhead info = school +:+ " cantrip")
    /\ (1 <= n ->
        forall ritual, getitem spell "ritual" = Ok ritual ->
        subhead info = ordinal n +:+ "-level " +:+ Str.lower school
                         +:+ (if eq_str ritual "yes" then " (ritual)" else "")).
Proof.
  unfold spell_shaped, has. intros Hshape Hlevel Hschool.
  repeat match type of Hshape with
         | (_ && _) = true => let H := fresh "H" in apply andb_prop in Hshape as [Hshape H]
         end.
  destruct (spell_subhead_shaped spell n school) as (text & Htext & Hzero & Hpos);
    try assumption.
  destruct (spell_components_total spell) as [comps Hcomps]; [assumption |].
  destruct (spell_higher_levels_total spell) as [higher Hhigher]; [assumption |].
  destruct (spell_page_total spell) as [token Htoken]; [assumption |].
  unfold desc_shaped in *.
  destruct (getitem spell "desc") as [raw_desc |] eqn:Hdesc; [| discriminate].
  destruct (list_to_paragraphs_total raw_desc) as [desc Hparas]; [assumption |].
  unfold get_spell_info.
  destruct (getitem spell "name"); [| discriminate].
  destruct (getitem spell "casting_time"); [| discriminate].
  destruct (getitem spell "range"); [| discriminate].
  destruct (getitem spell "duration"); [| discriminate].
  rewrite Htext, Hcomps, Hhigher, Htoken, Hdesc. cbn [bind]. rewrite Hparas. cbn [bind].
  eexists. split; [reflexivity |]. cbn [subhead]. split; assumption.
Qed.

Lemma get_spell_info_subhead_witness :
  exists info,
    get_spell_info fireball = Ok info
    /\ (3 = 0 -> subhead info = "Evocation" +:+ " cantrip")
    /\ (1 <= 3 ->
        forall ritual, getitem fireball "ritual" = Ok ritual ->
        subhead info = ordinal 3 +:+ "-level " +:+ Str.lower "Evocation"
                         +:+ (if eq_str ritual "yes" then " (ritual)" else "")).
Proof.
  apply (get_spell_info_subhead fireball 3 "Evocation"); reflexivity.
Defined.

(** The three forms of the subhead, by evaluation. *)
Example subhead_examples :
  (exists info, get_spell_info fireball = Ok info
                /\ subhead info = "3rd-level evocation"%string)
  /\ (exists info, get_spell_info fire_bolt = Ok info
                   /\ subhead info = "Evocation cantrip"%string)
  /\ (exists info, get_spell_info (spell_record "Detect Magic" 1 "Divination" "yes") = Ok info
                   /\ subhead info = "1st-level divination (ritual)"%string).
Proof. repeat split; eexists; split; reflexivity. Qed.

(** A record that formats has every field of [REQUIRED]. *)
Lemma get_spell_info_reads_required (spell : json) (info : SpellInfo) :
  get_spell_info spell = Ok info -> forallb (has spell) REQUIRED = true.
Proof.
  unfold get_spell_info. intros H.
  apply bind_ok in H as (v_name & Hname & H).
  apply bind_ok in H as (v_subhead & Hsubhead & H).
  apply bind_ok in H as (v_time & Htime & H).
  apply bind_ok in H as (v_range & Hrange & H).
  apply bind_ok in H as (v_comps & Hcomps & H).
  apply bind_ok in H as (v_duration & Hduration & H).
  apply bind_ok in H as (v_desc & Hdesc & H).
  apply bind_ok in H as (v_text & _ & H).
  apply bind_ok in H as (v_higher & _ & H).
  apply bind_ok in H as (v_page & Hpage & _).
  unfold spell_subhead in Hsubhead. apply bind_ok in Hsubhead as (v_level & Hlevel & Hsub).
  assert (Hschool : exists v, getitem spell "school" = Ok v).
  { destruct (eq_zero v_level).
    - apply bind_ok in Hsub as (v & Hv & _). unfold school_name in Hv.
      apply bind_ok in Hv as (v' & Hv' & _). eauto.
    - apply bind_ok in Hsub as (abbrev & _ & Hsub).
      apply bind_ok in Hsub as (v & Hv & _). unfold school_name in Hv.
      apply bind_ok in Hv as (v' & Hv' & _). eauto. }
  destruct Hschool as [v_school Hschool].
  unfold spell_components in Hcomps. apply bind_ok in Hcomps as (v_raw & Hraw & _).
  unfold spell_page in Hpage. apply bind_ok in Hpage as (v_rawpage & Hrawpage & _).
  unfold REQUIRED, has. cbn [forallb].
  now rewrite Hname, Hlevel, Hschool, Htime, Hrange, Hraw, Hduration, Hdesc, Hrawpage.
Qed.

Lemma lacks_required_raises (item : json) :
  lacks_required item = true -> exists e, get_spell_info item = Raise e.
Proof.
  intros Hlacks. destruct (get_spell_info item) as [info | e] eqn:Hinfo; [| eauto].
  apply get_spell_info_reads_required in Hinfo.
  unfold lacks_required in Hlacks. apply existsb_exists in Hlacks as (field & Hin & Hno).
  rewrite forallb_forall in Hinfo. rewrite (Hinfo field Hin) in Hno. discriminate.
Qed.

Lemma lacks_name_or_level_raises (item : json) :
  lacks_name_or_level item = true -> get_spell_info item = Raise KeyError.
Proof.
  unfold lacks_name_or_level, has, get_spell_info, spell_subhead.
  destruct item; try discriminate. cbn [getitem].
  destruct (dict_get entries "name"); [| reflexivity].
  destruct (dict_get entries "level"); [discriminate | reflexivity].
Qed.

Lemma lacks_name_or_level_unreadable (attr : string) (item : json) (e : exn) :
  lacks_name_or_level item = true -> getitem item attr = Raise e -> e = KeyError.
Proof.
  destruct item; try discriminate. cbn [getitem].
  destruct (dict_get entries attr); [discriminate | now intros _ [= <-]].
Qed.

Section ScanRaises.

Variables (attr request : string) (trunc : Z).

Lemma scan_raises (target : list json) :
  forallb lacks_required target = true ->
  existsb (hit attr request) target = true ->
  forall results, exists e, scan attr request trunc target results = Raise e.
Proof.
  induction target as [|item target IH]; [discriminate |].
  cbn [forallb existsb]. intros Hlacks Hhit results.
  apply andb_prop in Hlacks as [Hitem Hrest].
  destruct (getitem item attr) as [value | e] eqn:Hvalue.
  - destruct (hit attr request item) eqn:Hitem_hit.
    + destruct (lacks_required_raises item Hitem) as [e He].
      exists e. now apply scan_unformattable.
    + rewrite scan_miss; [now apply IH | | assumption].
      unfold readable. now rewrite Hvalue.
  - exists e. now apply scan_unreadable.
Qed.

Lemma scan_raises_key_error (target : list json) :
  forallb lacks_name_or_level target = true ->
  existsb (hit attr request) target = true ->
  forall results, scan attr request trunc target results = Raise KeyError.
Proof.
  induction target as [|item target IH]; [discriminate |].
  cbn [forallb existsb]. intros Hlacks Hhit results.
  apply andb_prop in Hlacks as [Hitem Hrest].
  destruct (getitem item attr) as [value | e] eqn:Hvalue.
  - destruct (hit attr request item) eqn:Hitem_hit.
    + apply scan_unformattable; [assumption | now apply lacks_name_or_level_raises].
    + rewrite scan_miss; [now apply IH | | assumption].
      unfold readable. now rewrite Hvalue.
  - rewrite (scan_unreadable attr request trunc item target results e Hvalue).
    now rewrite (lacks_name_or_level_unreadable attr item e Hitem Hvalue).
Qed.

End ScanRaises.

(** C9 (amended): whatever the resource, every matching record goes through
    [get_spell_info].  On a loaded table whose first record carries the
    attribute and all of whose records lack one of the nine fields that
    function reads on every record (name, level, school, casting_time, range,
    components, duration, desc, page), a search with a matching record raises
    instead of returning; the exception is [KeyError] when every record is a
    mapping without a name or without a level. *)
Theorem search_formats_every_resource_as_spells (self : SRD)
    (resource attr request : string) (trunc : Z) (target : list json) :
  raw self !! resource = Some target ->
  first_has attr target ->
  existsb (hit attr request) target = true ->
  (forallb lacks_required target = true ->
   exists e, search self resource attr request trunc = Raise e)
  /\ (forallb lacks_name_or_level target = true ->
      search self resource attr request trunc = Raise KeyError).
Proof.
  intros Hraw Hfirst Hhit.
  rewrite (search_loaded self resource attr request trunc target Hraw Hfirst). split.
  - intros Hlacks.
    destruct (scan_raises attr request trunc target Hlacks Hhit []) as [e He].
    exists e. now rewrite He.
  - intros Hlacks.
    now rewrite (scan_raises_key_error attr request trunc target Hlacks Hhit []).
Qed.

Lemma search_formats_every_resource_as_spells_witness :
  (exists e, search conditions_only "conditions" "name" "blind" 5 = Raise e)
  /\ search conditions_only "conditions" "name" "blind" 5 = Raise KeyError.
Proof.
  assert (Hfirst : first_has "name" [blinded]) by (exists blinded; split; reflexivity).
  split.
  - apply (proj1 (search_formats_every_resource_as_spells conditions_only
                    "conditions" "name" "blind" 5 [blinded] eq_refl Hfirst eq_refl)).
    reflexivity.
  - apply (proj2 (search_formats_every_resource_as_spells conditions_only
                    "conditions" "name" "blind" 5 [blinded] eq_refl Hfirst eq_refl)).
    reflexivity.
Defined.

(** C9 as stated fails twice.  The exception need not be a lookup exception:
    a feature whose level is a string lacks six of the spell fields and makes
    the search raise [TypeError].  And a missing spell field need not make
    the formatter raise: a spell without "material" and "higher_level"
    formats. *)
Lemma search_non_spell_not_always_lookup_error :
  lacks_required rage = true
  /\ hit "name" "rage" rage = true
  /\ search features_only "features" "name" "rage" 5 = Raise TypeError
  /\ is_lookup_error TypeError = false
  /\ has fireball "material" = false
  /\ has fireball "higher_level" = false
  /\ is_ok (search spells_only "spells" "name" "fire" 5) = true.
Proof. repeat split. Qed.

(** * Further properties of the code *)

(** ** Strings: substrings and case *)

Lemma prefix_empty (s : string) : String.prefix EmptyString s = true.
Proof. destruct s; reflexivity. Qed.

Lemma prefix_app_r (q h b : string) :
  String.prefix q h = true -> String.prefix q (h +:+ b) = true.
Proof.
  revert h. induction q as [|c q IH]; intros h H; [apply prefix_empty |].
  destruct h as [|d h]; [discriminate |].
  change (String d h +:+ b) with (String d (h +:+ b)). cbn [String.prefix] in *.
  destruct (ascii_dec c d); [now apply IH | discriminate].
Qed.

Lemma contains_app_r (q h b : string) :
  Str.contains q h = true -> Str.contains q (h +:+ b) = true.
Proof.
  induction h as [|c h IH]; intros H.
  - cbn [Str.contains] in H. rewrite orb_false_r in H.
    destruct q; [| discriminate]. destruct b; reflexivity.
  - change (String c h +:+ b) with (String c (h +:+ b)).
    cbn [Str.contains] in *. apply orb_prop in H as [H | H].
    + change (String c (h +:+ b)) with (String c h +:+ b).
      now rewrite (prefix_app_r q (String c h) b H).
    + rewrite (IH H). apply orb_true_r.
Qed.

Lemma contains_app_l (q a h : string) :
  Str.contains q h = true -> Str.contains q (a +:+ h) = true.
Proof.
  intros H. induction a as [|c a IH]; [exact H |].
  change (String c a +:+ h) with (String c (a +:+ h)).
  cbn [Str.contains]. rewrite IH. apply orb_true_r.
Qed.

Lemma lower_app (s t : string) : Str.lower (s +:+ t) = Str.lower s +:+ Str.lower t.
Proof.
  induction s as [|c s IH]; [reflexivity |].
  change (String c s +:+ t) with (String c (s +:+ t)). cbn [Str.lower]. now rewrite IH.
Qed.

(** ** The collapser, continued *)

Lemma collapse_loop_acc {B : Type} (leaf : B -> json) (l : list B) (result : string) :
  fold_left (fun result x => result +:+ PARA +:+ collapse (leaf x)) l result
  = result +:+ fold_left (fun result x => result +:+ PARA +:+ collapse (leaf x)) l EmptyString.
Proof.
  revert result. induction l as [|x l IH]; intros result; cbn [fold_left].
  - now rewrite append_nil_r.
  - rewrite IH. rewrite (IH (EmptyString +:+ _)). now rewrite !append_assoc.
Qed.

(** X1: the keys of a mapping are not part of the searched text: a mapping
    collapses like the list of its values. *)
Theorem collapse_ignores_keys (d : list (string * json)) :
  collapse (JDict d) = collapse (JList (map snd d)).
Proof.
  cbn [collapse]. generalize EmptyString.
  induction d as [|kv d IH]; intros result; cbn [map fold_left]; [reflexivity | apply IH].
Qed.

(** X2: collapsing a list is compositional: the text of a concatenation is
    the concatenation of the texts, and each element contributes a separator
    followed by its own text. *)
Theorem collapse_list_app (l1 l2 : list json) (x : json) :
  collapse (JList (l1 ++ l2)) = collapse (JList l1) +:+ collapse (JList l2)
  /\ collapse (JList (x :: l2)) = PARA +:+ collapse x +:+ collapse (JList l2).
Proof.
  cbn [collapse]. split.
  - rewrite fold_left_app. apply (collapse_loop_acc (fun x => x)).
  - cbn [fold_left]. rewrite (collapse_loop_acc (fun x => x)).
    now rewrite !append_assoc.
Qed.

Lemma spread_holds_leaf (ls : list string) (s leaf : string) :
  spread ls s -> In leaf ls -> exists a b, s = a +:+ leaf +:+ b.
Proof.
  destruct ls as [|l ls]; [intros _ [] |]. cbn [spread].
  intros (k0 & ks & kn & Hlen & ->) [-> | Hin].
  - eauto.
  - revert ks Hlen k0 l. induction ls as [|l' ls IH]; [destruct Hin |].
    intros [|k ks] Hlen k0 l; [discriminate |]. injection Hlen as Hlen. cbn [chain].
    destruct Hin as [-> | Hin].
    + exists (seps k0 +:+ l +:+ seps (S k)), (chain ks ls +:+ seps kn).
      now rewrite !append_assoc.
    + destruct (IH Hin ks Hlen (S k) l') as (a & b & Heq).
      exists (seps k0 +:+ l +:+ a), b. rewrite !append_assoc in *.
      do 2 f_equal. exact Heq.
Qed.

(** X3: a query that occurs in the lower-cased text of any string leaf of
    the attribute, at whatever depth, is found by the test of the scan. *)
Theorem hit_on_any_leaf (attr request leaf : string) (item value : json) :
  getitem item attr = Ok value ->
  In leaf (string_leaves value) ->
  Str.contains request (Str.lower leaf) = true ->
  hit attr request item = true.
Proof.
  intros Hvalue Hin Hleaf. unfold hit. rewrite Hvalue.
  destruct (spread_holds_leaf _ _ leaf (collapse_spread value) Hin) as (a & b & ->).
  rewrite !lower_app. apply contains_app_l. now apply contains_app_r.
Qed.

Lemma hit_on_any_leaf_witness : hit "school" "evoc" fireball = true.
Proof.
  apply (hit_on_any_leaf "school" "evoc" "Evocation" fireball
           (JDict [("name"%string, JStr "Evocation")])).
  - reflexivity.
  - left; reflexivity.
  - reflexivity.
Defined.

(** ** The formatter, continued *)

Lemma concat_merge_head (sep a b : string) (l : list string) :
  String.concat sep ((a +:+ sep +:+ b) :: l) = String.concat sep (a :: b :: l).
Proof.
  destruct l as [|c l].
  - reflexivity.
  - change (((a +:+ sep +:+ b) +:+ sep +:+ String.concat sep (c :: l))
            = a +:+ sep +:+ b +:+ sep +:+ String.concat sep (c :: l)).
    now rewrite !append_assoc.
Qed.

Lemma add_paragraphs_joins (ps : list string) (text : string) :
  add_paragraphs (JStr text) (map JStr ps) = Ok (JStr (String.concat INDENT (text :: ps))).
Proof.
  revert text. induction ps as [|p ps IH]; intros text; cbn [map add_paragraphs].
  - reflexivity.
  - cbn [as_str bind iadd_str]. rewrite IH. now rewrite concat_merge_head.
Qed.

(** X4: a non-empty list of paragraphs becomes the paragraphs joined by a
    line feed and an EM QUAD: the first paragraph is not indented, every
    later one is, and a single paragraph comes back unchanged. *)
Theorem list_to_paragraphs_joins (p : string) (ps : list string) :
  list_to_paragraphs (JList (map JStr (p :: ps))) = Ok (JStr (Str.join INDENT (p :: ps)))
  /\ list_to_paragraphs (JList [JStr p]) = Ok (JStr p).
Proof.
  split; [| reflexivity].
  unfold list_to_paragraphs. cbn [map first_item list_get nth_error bind len rest_items tl].
  destruct ps as [|q ps]; [reflexivity |].
  replace (1 <? Z.of_nat (length (JStr p :: map JStr (q :: ps)))) with true
    by (symmetry; apply Z.ltb_lt; cbn [length map]; lia).
  apply add_paragraphs_joins.
Qed.

(** X5: the formatter cannot return on a record whose description, or whose
    "higher levels" section, is an empty list: reading the first paragraph
    raises. *)
Theorem get_spell_info_empty_paragraphs (spell : json) :
  getitem spell "desc" = Ok (JList []) \/ getitem spell "higher_level" = Ok (JList []) ->
  exists e, get_spell_info spell = Raise e.
Proof.
  intros Hempty. destruct (get_spell_info spell) as [info | e] eqn:Hinfo; [| eauto].
  exfalso. unfold get_spell_info in Hinfo.
  apply bind_ok in Hinfo as (v_name & Hname & H).
  apply bind_ok in H as (v_subhead & _ & H).
  apply bind_ok in H as (v_time & _ & H).
  apply bind_ok in H as (v_range & _ & H).
  apply bind_ok in H as (v_comps & _ & H).
  apply bind_ok in H as (v_duration & _ & H).
  apply bind_ok in H as (v_desc & Hdesc & H).
  apply bind_ok in H as (v_text & Htext & H).
  apply bind_ok in H as (v_higher & Hhigher & _).
  destruct Hempty as [Hd | Hh].
  - rewrite Hd in Hdesc. injection Hdesc as <-. discriminate.
  - unfold spell_higher_levels in Hhigher.
    destruct spell; try discriminate. cbn [contains bind] in Hhigher.
    rewrite contains_key_get in Hhigher. cbn [getitem] in Hh, Hhigher.
    destruct (dict_get entries "higher_level"); [| discriminate].
    injection Hh as ->. discriminate.
Qed.

Lemma get_spell_info_empty_paragraphs_witness :
  exists e,
    get_spell_info
      (JDict [("name", JStr "Light"); ("level", JInt 0);
              ("school", JDict [("name", JStr "Evocation")]);
              ("casting_time", JStr "1 action"); ("range", JStr "Touch");
              ("components", JList [JStr "V"]); ("duration", JStr "1 hour");
              ("desc", JList []); ("page", JStr "phb 255")]%string) = Raise e.
Proof.
  apply get_spell_info_empty_paragraphs. left. reflexivity.
Defined.

(** On a record otherwise of the spell schema the exception is [IndexError]. *)
Example empty_desc_index_error :
  get_spell_info
    (JDict [("name", JStr "Light"); ("level", JInt 0);
            ("school", JDict [("name", JStr "Evocation")]);
            ("casting_time", JStr "1 action"); ("range", JStr "Touch");
            ("components", JList [JStr "V"]); ("duration", JStr "1 hour");
            ("desc", JList []); ("page", JStr "phb 255")]%string) = Raise IndexError.
Proof. reflexivity. Qed.

(** X6: the level indexes a table of nine abbreviations.  An integer level
    of 10 or more, or of -9 or less, makes the formatter raise [IndexError]
    as soon as the record has a name. *)
Theorem get_spell_info_level_out_of_range (spell : json) (n : Z) :
  has spell "name" = true ->
  getitem spell "level" = Ok (JInt n) ->
  10 <= n \/ n <= -9 ->
  get_spell_info spell = Raise IndexError.
Proof.
  unfold has, get_spell_info, spell_subhead. intros Hname Hlevel Hrange.
  destruct (getitem spell "name"); [| discriminate]. rewrite Hlevel. cbn [bind eq_zero].
  replace (n =? 0) with false by (symmetry; apply Z.eqb_neq; lia).
  cbn [num_abbrev]. unfold tuple_get. cbn [NUM_ABBREVS length].
  replace ((0 <=? n - 1) && (n - 1 <? Z.of_nat 9)) with false
    by (symmetry; apply andb_false_iff; destruct Hrange;
        [right; apply Z.ltb_ge | left; apply Z.leb_gt]; lia).
  replace ((- Z.of_nat 9 <=? n - 1) && (n - 1 <? 0)) with false
    by (symmetry; apply andb_false_iff; destruct Hrange;
        [right; apply Z.ltb_ge | left; apply Z.leb_gt]; lia).
  reflexivity.
Qed.

Lemma get_spell_info_level_out_of_range_witness :
  get_spell_info (spell_record "Wish" 10 "Conjuration" "no") = Raise IndexError.
Proof.
  apply (get_spell_info_level_out_of_range _ 10); [reflexivity | reflexivity | lia].
Defined.

(** X7: a negative level from -8 to -1 does not raise: the index counts
    from the end of the table, so the subhead reads like that of level
    n + 9. *)
Theorem spell_subhead_negative_level (spell : json) (n : Z) (school : string)
    (ritual : json) :
  getitem spell "level" = Ok (JInt n) ->
  -8 <= n <= -1 ->
  school_name spell = Ok (JStr school) ->
  getitem spell "ritual" = Ok ritual ->
  spell_subhead spell
  = Ok (ordinal (n + 9) +:+ "-level " +:+ Str.lower school
          +:+ (if eq_str ritual "yes" then " (ritual)" else "")).
Proof.
  intros Hlevel Hn Hschool Hritual. unfold spell_subhead.
  rewrite Hlevel. cbn [bind eq_zero].
  replace (n =? 0) with false by (symmetry; apply Z.eqb_neq; lia).
  rewrite Hschool, Hritual.
  assert (Habbrev : num_abbrev (JInt n) = Ok (ordinal (n + 9))).
  { assert (H : n = -8 \/ n = -7 \/ n = -6 \/ n = -5 \/ n = -4 \/ n = -3
                \/ n = -2 \/ n = -1) by lia.
    repeat (destruct H as [-> | H]; [reflexivity |]). now subst. }
  rewrite Habbrev. cbn [bind lower_value].
  destruct (eq_str ritual "yes"); rewrite ?append_assoc, ?append_nil_r; reflexivity.
Qed.

Lemma spell_subhead_negative_level_witness :
  spell_subhead (spell_record "Odd" (-1) "Illusion" "no")
  = Ok (ordinal (-1 + 9) +:+ "-level " +:+ Str.lower "Illusion"
          +:+ (if eq_str (JStr "no") "yes" then " (ritual)" else "")).
Proof.
  apply (spell_subhead_negative_level _ (-1) "Illusion" (JStr "no"));
    [reflexivity | lia | reflexivity | reflexivity].
Defined.

(** *** The page token *)

Lemma space_free_snoc (word : string) (c : ascii) :
  space_free word = true -> Str.is_space c = false ->
  space_free (word +:+ String c EmptyString) = true.
Proof.
  intros Hword Hc. induction word as [|d word IH].
  - change (space_free (String c EmptyString) = true).
    cbn [space_free]. now rewrite Hc.
  - change (String d word +:+ String c EmptyString)
      with (String d (word +:+ String c EmptyString)).
    cbn [space_free] in *. apply andb_prop in Hword as [-> Hword]. now rewrite IH.
Qed.

Lemma append_nil_l (s : string) : EmptyString +:+ s = s.
Proof. reflexivity. Qed.

Lemma append_cons (c : ascii) (s t : string) : String c s +:+ t = String c (s +:+ t).
Proof. reflexivity. Qed.

Lemma snoc_not_empty (word : string) (c : ascii) :
  word +:+ String c EmptyString <> EmptyString.
Proof. destruct word; discriminate. Qed.

(** Every word of [split] is non-empty and free of white space. *)
Lemma split_from_words (s word : string) :
  space_free word = true ->
  Forall (fun w => w <> EmptyString /\ space_free w = true) (Str.split_from s word).
Proof.
  revert word. induction s as [|c s IH]; intros word Hword; cbn [Str.split_from].
  - destruct word; [constructor |]. constructor; [| constructor]. split; [discriminate | assumption].
  - destruct (Str.is_space c) eqn:Hc.
    + destruct word; [now apply IH |].
      constructor; [split; [discriminate | assumption] | now apply IH].
    + apply IH. now apply space_free_snoc.
Qed.

Lemma split_from_blank (s : string) :
  blank s = true -> Str.split_from s EmptyString = [].
Proof.
  induction s as [|c s IH]; [reflexivity |]. cbn [blank Str.split_from].
  intros H. apply andb_prop in H as [-> H]. now apply IH.
Qed.

Lemma split_from_none (s word : string) :
  Str.split_from s word = [] -> word = EmptyString /\ blank s = true.
Proof.
  revert word. induction s as [|c s IH]; intros word; cbn [Str.split_from blank].
  - destruct word; [auto | discriminate].
  - destruct (Str.is_space c) eqn:Hc.
    + destruct word; [| discriminate]. intros H. now destruct (IH _ H).
    + intros H. destruct (IH _ H) as [Hword _]. now apply snoc_not_empty in Hword.
Qed.

(** The last word of [split] sits in the text, followed by white space only
    and preceded by nothing or by a white space character. *)
Lemma split_from_last (s word token : string) (before : list string) :
  rev (Str.split_from s word) = token :: before ->
  exists a b,
    word +:+ s = a +:+ token +:+ b /\ blank b = true
    /\ (a = EmptyString \/ exists a' c, a = a' +:+ String c EmptyString /\ Str.is_space c = true).
Proof.
  revert word before. induction s as [|c s IH]; intros word before; cbn [Str.split_from].
  - destruct word as [|d word]; [discriminate |]. intros [= <- _].
    exists EmptyString, EmptyString. rewrite !append_nil_r. auto.
  - destruct (Str.is_space c) eqn:Hc.
    + destruct word as [|d word].
      * intros H. destruct (IH _ _ H) as (a & b & Heq & Hb & Ha).
        exists (String c a), b. rewrite append_nil_l in *. rewrite append_cons.
        rewrite <- Heq. split; [reflexivity |]. split; [assumption |]. right.
        destruct Ha as [-> | (a' & c' & -> & Hc')].
        -- exists EmptyString, c. auto.
        -- exists (String c a'), c'. auto.
      * destruct (Str.split_from s EmptyString) as [|w ws] eqn:Hsplit.
        -- intros [= <- _]. apply split_from_none in Hsplit as [_ Hblank].
           exists EmptyString, (String c s). cbn [blank]. rewrite Hc, Hblank. auto.
        -- intros H. change (rev (w :: ws) ++ [String d word] = token :: before) in H.
           destruct (rev (w :: ws)) as [|t ts] eqn:Hrev.
           { apply (f_equal (@length string)) in Hrev. rewrite length_rev in Hrev.
             discriminate. }
           cbn [app] in H. injection H as -> _.
           destruct (IH EmptyString ts) as (a & b & Heq & Hb & Ha).
           { now rewrite Hsplit, Hrev. }
           rewrite append_nil_l in Heq.
           exists (String d word +:+ String c a), b. split.
           { rewrite Heq. rewrite !append_assoc, !append_cons. reflexivity. }
           split; [assumption |]. right.
           destruct Ha as [-> | (a' & c' & -> & Hc')].
           ++ exists (String d word), c. auto.
           ++ exists (String d word +:+ String c a'), c'. split; [| assumption].
              rewrite !append_assoc. reflexivity.
    + intros H. destruct (IH _ _ H) as (a & b & Heq & Hb & Ha).
      exists a, b. rewrite append_assoc in Heq. auto.
Qed.

(** X8: the page of a formatted spell is the last word of the citation: a
    non-empty token without white space, followed in the citation by white
    space only and preceded by nothing or by a white space character. *)
Theorem spell_page_last_word (spell : json) (token : string) :
  spell_page spell = Ok token ->
  exists s a b,
    getitem spell "page" = Ok (JStr s)
    /\ s = a +:+ token +:+ b
    /\ token <> EmptyString /\ space_free token = true
    /\ blank b = true
    /\ (a = EmptyString
        \/ exists a' c, a = a' +:+ String c EmptyString /\ Str.is_space c = true).
Proof.
  unfold spell_page. intros H. apply bind_ok in H as (raw_page & Hraw & H).
  destruct raw_page as [| | | | s | |]; try discriminate.
  destruct (rev (Str.split s)) as [|t ts] eqn:Hrev; [discriminate |].
  injection H as ->. unfold Str.split in Hrev.
  destruct (split_from_last s EmptyString token ts Hrev) as (a & b & Heq & Hb & Ha).
  assert (Hin : In token (Str.split_from s EmptyString)).
  { apply in_rev. rewrite Hrev. now left. }
  pose proof (split_from_words s EmptyString eq_refl) as Hwords.
  rewrite List.Forall_forall in Hwords. destruct (Hwords token Hin) as [Hne Hfree].
  exists s, a, b. rewrite append_nil_l in Heq. auto 10.
Qed.

Lemma spell_page_last_word_witness :
  exists s a b,
    getitem fireball "page" = Ok (JStr s)
    /\ s = a +:+ "241" +:+ b
    /\ "241"%string <> EmptyString /\ space_free "241" = true
    /\ blank b = true
    /\ (a = EmptyString
        \/ exists a' c, a = a' +:+ String c EmptyString /\ Str.is_space c = true).
Proof. apply (spell_page_last_word fireball "241"). reflexivity. Defined.

(** X9: a citation without any word, empty or all white space, makes the
    page lookup raise [IndexError]. *)
Theorem spell_page_blank (spell : json) (s : string) :
  getitem spell "page" = Ok (JStr s) -> blank s = true -> spell_page spell = Raise IndexError.
Proof.
  intros Hpage Hblank. unfold spell_page. rewrite Hpage. cbn [bind].
  unfold Str.split. now rewrite (split_from_blank s Hblank).
Qed.

Lemma spell_page_blank_witness :
  spell_page (JDict [("page"%string, JStr "  ")]) = Raise IndexError.
Proof. apply (spell_page_blank _ "  "); reflexivity. Defined.

(** ** The search engine, continued *)

Lemma search_returns_pair (self : SRD) (resource attr request : string) (trunc : Z)
    (results : list SpellInfo) (truncated : bool) :
  search self resource attr request trunc = Ok (Pair results truncated) ->
  exists target,
    raw self !! resource = Some target
    /\ scan attr request trunc target [] = Ok (results, truncated).
Proof.
  unfold search, raw_get. destruct (raw self !! resource) as [target |]; [| discriminate].
  intros H. apply bind_ok in H as (first & _ & H). apply bind_ok in H as (present & _ & H).
  destruct present; cbn [negb] in H; [| discriminate].
  apply bind_ok in H as ([r b] & Hscan & H). injection H as <- <-. eauto.
Qed.

Section ScanInvariants.

Variables (attr request : string) (trunc : Z).

Lemma scan_step (item : json) (rest : list json) (results r : list SpellInfo) (b : bool) :
  scan attr request trunc (item :: rest) results = Ok (r, b) ->
  (hit attr request item = false /\ scan attr request trunc rest results = Ok (r, b))
  \/ exists info,
       hit attr request item = true /\ get_spell_info item = Ok info
       /\ ((trunc <> 0 /\ trunc < Z.of_nat (length results) + 1
            /\ r = results ++ [info] /\ b = true)
           \/ ((trunc = 0 \/ Z.of_nat (length results) + 1 <= trunc)
               /\ scan attr request trunc rest (results ++ [info]) = Ok (r, b))).
Proof.
  cbn [scan]. unfold hit. intros H. apply bind_ok in H as (value & -> & H).
  destruct (Str.contains request (Str.lower (collapse value))); [| now left].
  right. apply bind_ok in H as (info & Hinfo & H). exists info.
  split; [reflexivity |]. split; [assumption |].
  rewrite length_app in H. cbn [length] in H.
  destruct (trunc =? 0) eqn:Hzero; cbn [negb andb] in H.
  - apply Z.eqb_eq in Hzero. right. auto.
  - apply Z.eqb_neq in Hzero.
    destruct (trunc <? Z.of_nat (length results + 1)) eqn:Hfull.
    + apply Z.ltb_lt in Hfull. injection H as <- <-. left. repeat split; [assumption | lia].
    + apply Z.ltb_ge in Hfull. right. split; [right; lia | assumption].
Qed.

Lemma scan_bounded (target : list json) :
  0 < trunc ->
  forall (results r : list SpellInfo) (b : bool),
    Z.of_nat (length results) <= trunc ->
    scan attr request trunc target results = Ok (r, b) ->
    (b = true /\ Z.of_nat (length r) = trunc + 1)
    \/ (b = false /\ Z.of_nat (length r) <= trunc).
Proof.
  intros Hpos. induction target as [|item target IH]; intros results r b Hroom H.
  - injection H as <- <-. now right.
  - apply scan_step in H as [[_ H] | (info & _ & _ & [(_ & Hfull & -> & ->) | [Hmore H]])].
    + now apply (IH results r b).
    + left. split; [reflexivity |]. rewrite length_app. cbn [length]. lia.
    + apply (IH (results ++ [info]) r b); [| assumption].
      rewrite length_app. cbn [length]. lia.
Qed.

Lemma scan_unlimited (target : list json) :
  trunc = 0 ->
  forall (results r : list SpellInfo) (b : bool),
    scan attr request trunc target results = Ok (r, b) -> b = false.
Proof.
  intros Hzero. induction target as [|item target IH]; intros results r b H.
  - now injection H as _ <-.
  - apply scan_step in H as [[_ H] | (info & _ & _ & [(Hnz & _) | [_ H]])];
      [now apply (IH results r b) | contradiction | now apply (IH (results ++ [info]) r b)].
Qed.

Lemma scan_sound (target : list json) :
  forall (results r : list SpellInfo) (b : bool),
    scan attr request trunc target results = Ok (r, b) ->
    exists n infos,
      r = results ++ infos
      /\ map_res get_spell_info (firstn n (List.filter (hit attr request) target)) = Ok infos.
Proof.
  induction target as [|item target IH]; intros results r b H.
  - injection H as <- <-. exists O, []. now rewrite app_nil_r.
  - apply scan_step in H as [[Hmiss H] | (info & Hhit & Hinfo & [(_ & _ & -> & _) | [_ H]])];
      cbn [List.filter].
    + rewrite Hmiss. now apply (IH results r b).
    + rewrite Hhit. exists 1%nat, [info]. split; [reflexivity |].
      cbn [firstn map_res]. now rewrite Hinfo.
    + rewrite Hhit. destruct (IH _ _ _ H) as (n & infos & -> & Hinfos).
      exists (S n), (info :: infos). split; [now rewrite <- app_assoc |].
      cbn [firstn map_res]. now rewrite Hinfo, Hinfos.
Qed.

End ScanInvariants.

(** X10: whatever the table holds, a search with a positive limit that
    returns never hands back more than limit+1 matches, and the truncated
    flag is set exactly when it hands back limit+1; with limit 0 the flag is
    never set. *)
Theorem search_result_bounded (self : SRD) (resource attr request : string) (trunc : Z)
    (results : list SpellInfo) (truncated : bool) :
  search self resource attr request trunc = Ok (Pair results truncated) ->
  (0 < trunc ->
   Z.of_nat (length results) <= trunc + 1
   /\ (truncated = true <-> Z.of_nat (length results) = trunc + 1))
  /\ (trunc = 0 -> truncated = false).
Proof.
  intros H. apply search_returns_pair in H as (target & _ & Hscan). split.
  - intros Hpos.
    destruct (scan_bounded attr request trunc target Hpos [] results truncated)
      as [[-> Hlen] | [-> Hlen]]; [cbn [length]; lia | assumption | |].
    + split; [lia | tauto].
    + split; [lia |]. split; [discriminate | lia].
  - intros Hzero. exact (scan_unlimited attr request trunc target Hzero [] results truncated Hscan).
Qed.

Lemma search_result_bounded_witness :
  exists results truncated,
    search fire_spells "spells" "name" "fire" 1 = Ok (Pair results truncated)
    /\ (0 < 1 ->
        Z.of_nat (length results) <= 1 + 1
        /\ (truncated = true <-> Z.of_nat (length results) = 1 + 1))
    /\ (1 = 0 -> truncated = false).
Proof.
  destruct (search fire_spells "spells" "name" "fire" 1) as [[| results truncated] |] eqn:H;
    try discriminate.
  exists results, truncated. split; [reflexivity |].
  exact (search_result_bounded fire_spells "spells" "name" "fire" 1 results truncated H).
Defined.

(** X11: whatever the table holds, the matches a search returns are the
    formatted forms of the first records, in table order, that pass the test
    of the scan: nothing is returned that is not a formatted matching record
    of the table, none of those kept is skipped, and none is reordered. *)
Theorem search_returns_leading_matches (self : SRD) (resource attr request : string)
    (trunc : Z) (results : list SpellInfo) (truncated : bool) :
  search self resource attr request trunc = Ok (Pair results truncated) ->
  exists target n,
    raw self !! resource = Some target
    /\ map_res get_spell_info (firstn n (List.filter (hit attr request) target)) = Ok results.
Proof.
  intros H. apply search_returns_pair in H as (target & Hraw & Hscan).
  destruct (scan_sound attr request trunc target [] results truncated Hscan)
    as (n & infos & -> & Hinfos).
  exists target, n. auto.
Qed.

Lemma search_returns_leading_matches_witness :
  exists results target n,
    search fire_spells "spells" "name" "fire" 1 = Ok (Pair results true)
    /\ raw fire_spells !! "spells"%string = Some target
    /\ map_res get_spell_info (firstn n (List.filter (hit "name" "fire") target)) = Ok results.
Proof.
  destruct (search fire_spells "spells" "name" "fire" 1) as [[| results [|]] |] eqn:H;
    try discriminate.
  destruct (search_returns_leading_matches fire_spells "spells" "name" "fire" 1 results true H)
    as (target & n & Hraw & Hres).
  exists results, target, n. auto.
Defined.

(** X12: a loaded resource with no record makes the search raise
    [IndexError]: the attribute probe reads the first record before the
    scan. *)
Theorem search_empty_table_raises (self : SRD) (resource attr request : string) (trunc : Z) :
  raw self !! resource = Some [] ->
  search self resource attr request trunc = Raise IndexError.
Proof. intros Hraw. unfold search, raw_get. now rewrite Hraw. Qed.

Lemma search_empty_table_raises_witness :
  search (mkSRD {[ "traits"%string := [] ]}) "traits" "name" "dark" 5 = Raise IndexError.
Proof. apply search_empty_table_raises. reflexivity. Defined.

(** X13: only the first record is probed for the attribute.  A later record
    without it, once the scan reaches it (limit 0, or no more than limit
    matches before it), makes the search raise the exception of the failed
    lookup, [KeyError] for a mapping: the matches found before it are
    lost. *)
Theorem search_later_record_without_attribute (self : SRD) (resource attr request : string)
    (trunc : Z) (pre post : list json) (item : json) (infos : list SpellInfo) (e : exn) :
  raw self !! resource = Some (pre ++ item :: post) ->
  first_has attr (pre ++ item :: post) ->
  forallb (readable attr) pre = true ->
  map_res get_spell_info (List.filter (hit attr request) pre) = Ok infos ->
  trunc = 0 \/ Z.of_nat (length infos) <= trunc ->
  getitem item attr = Raise e ->
  search self resource attr request trunc = Raise e
  /\ (forall d, item = JDict d -> e = KeyError).
Proof.
  intros Hraw Hfirst Hread Hinfos Hroom Hitem. split.
  - rewrite (search_loaded self resource attr request trunc _ Hraw Hfirst).
    rewrite (scan_prefix attr request trunc pre (item :: post) Hread [] infos Hinfos)
      by (destruct Hroom; [now left | right; right; cbn [length]; lia]).
    now rewrite (scan_unreadable attr request trunc item post _ e Hitem).
  - intros d ->. cbn [getitem] in Hitem.
    destruct (dict_get d attr); [discriminate | now injection Hitem as <-].
Qed.

Lemma search_later_record_without_attribute_witness :
  search (mkSRD {[ "spells"%string := [fireball; JDict [("index"%string, JInt 2)]] ]})
    "spells" "name" "fire" 5 = Raise KeyError
  /\ (forall d, JDict [("index"%string, JInt 2)] = JDict d -> KeyError = KeyError).
Proof.
  destruct (get_spell_info fireball) as [info |] eqn:Hinfo; [| discriminate].
  apply (search_later_record_without_attribute
           (mkSRD {[ "spells"%string := [fireball; JDict [("index"%string, JInt 2)]] ]})
           "spells" "name" "fire" 5 [fireball] [] (JDict [("index"%string, JInt 2)]) [info]).
  - reflexivity.
  - exists fireball. split; reflexivity.
  - reflexivity.
  - change (List.filter (hit "name" "fire") [fireball]) with [fireball].
    cbn [map_res]. now rewrite Hinfo.
  - right. cbn [length]. lia.
  - reflexivity.
Defined.

(** ** The commands *)










Section EquipmentFacts.

Context {A : Type} (name_of : A -> string) (search_equipment : string -> list A).




(** A request that finds something right away is answered as it is:
    no second search, and the selection is the one of the other commands. *)
Theorem equipment_command_found (args : list string) :
  (2 < String.length (Str.join " " args))%nat ->
  search_equipment (Str.join " " args) <> [] ->
  exists selection,
    disambiguate name_of (Str.join " " args) (search_equipment (Str.join " " args))
    = Ok selection
    /\ selection <> NotFound
    /\ equipment_command name_of search_equipment args
       = Ok (Answer (Str.join " " args) selection).
Proof.
  intros Hlong Hsome. unfold equipment_command.
  replace (String.length (Str.join " " args) <=? 2)%nat with false
    by (symmetry; apply Nat.leb_gt; lia).
  destruct (search_equipment (Str.join " " args)) as [|m ms] eqn:Hsearch; [contradiction |].
  cbn [length Nat.eqb fst snd]. rewrite disambiguate_cases. cbn [bind].
  eexists. split; [reflexivity |]. split; [| reflexivity].
  destruct (find _ _); [discriminate |]. destruct ms; discriminate.
Qed.

End EquipmentFacts.



Lemma equipment_command_found_witness :
  exists selection,
    disambiguate (fun n : string => n) (Str.join " " ["club"%string])
      ((fun _ : string => ["Club"%string]) (Str.join " " ["club"%string]))
    = Ok selection
    /\ selection <> NotFound
    /\ equipment_command (fun n : string => n) (fun _ : string => ["Club"%string])
         ["club"%string]
       = Ok (Answer (Str.join " " ["club"%string]) selection).
Proof.
  apply (equipment_command_found (fun n : string => n) (fun _ => ["Club"%string])
           ["club"%string]); [apply Nat.ltb_lt; reflexivity | discriminate].
Defined.

(** ** The guild caches *)

Section CachesFacts.

Context {V : Type}.

Lemma cache_prefixes_loop (rows : list (V * V)) (st : caches V) :
  fold_left
    (fun st guild =>
       let st := mkCaches (guild_ids st ++ [fst guild]) (guild_prefixes st)
                   (guild_subreddits st) in
       mkCaches (guild_ids st) (guild_prefixes st ++ [snd guild]) (guild_subreddits st))
    rows st
  = mkCaches (guild_ids st ++ map fst rows) (guild_prefixes st ++ map snd rows)
      (guild_subreddits st).
Proof.
  revert st. induction rows as [|guild rows IH]; intros [ids prefixes srs]; cbn [fold_left map].
  - cbn. now rewrite !app_nil_r.
  - rewrite IH. cbn. now rewrite <- !app_assoc.
Qed.

Lemma cache_subreddits_loop (rows : list (V * V)) (st : caches V) :
  fold_left
    (fun st sr =>
       let sr_dict := mk_sr_dict (fst sr) (snd sr) in
       mkCaches (guild_ids st) (guild_prefixes st) (guild_subreddits st ++ [sr_dict]))
    rows st
  = mkCaches (guild_ids st) (guild_prefixes st)
      (guild_subreddits st ++ map (fun sr => mk_sr_dict (fst sr) (snd sr)) rows).
Proof.
  revert st. induction rows as [|sr rows IH]; intros [ids prefixes srs]; cbn [fold_left map].
  - cbn. now rewrite !app_nil_r.
  - rewrite IH. cbn. now rewrite <- !app_assoc.
Qed.

Lemma cache_prefixes_some (rows : list (V * V)) (st : caches V) :
  cache_prefixes (Some rows) st = (Ok tt, mkCaches (map fst rows) (map snd rows) []).
Proof. unfold cache_prefixes. now rewrite cache_prefixes_loop. Qed.

Lemma cache_subreddits_some (rows : list (V * V)) (st : caches V) :
  cache_subreddits (Some rows) st
  = (Ok tt, mkCaches (guild_ids st) (guild_prefixes st)
              (map (fun sr => mk_sr_dict (fst sr) (snd sr)) rows)).
Proof. unfold cache_subreddits. now rewrite cache_subreddits_loop. Qed.

(** X18: a refresh of the prefixes that gets its rows keeps nothing of what
    was cached: the ids and the prefixes are the first and the second column
    of the rows, in the order of the rows and position by position, and the
    subreddit cache is emptied as well. *)
Theorem cache_prefixes_replaces (rows : list (V * V)) (st : caches V) :
  fst (cache_prefixes (Some rows) st) = Ok tt
  /\ guild_ids (snd (cache_prefixes (Some rows) st)) = map fst rows
  /\ guild_prefixes (snd (cache_prefixes (Some rows) st)) = map snd rows
  /\ combine (guild_ids (snd (cache_prefixes (Some rows) st)))
       (guild_prefixes (snd (cache_prefixes (Some rows) st))) = rows
  /\ guild_subreddits (snd (cache_prefixes (Some rows) st)) = [].
Proof.
  rewrite cache_prefixes_some. cbn [fst snd guild_ids guild_prefixes guild_subreddits].
  repeat split. induction rows as [|[id prefix] rows IH]; [reflexivity |].
  cbn [map combine fst snd]. now rewrite IH.
Qed.

(** X19: a refresh of the subreddits that gets its rows replaces the
    subreddit cache by one entry per row, in the order of the rows, and
    leaves the ids and the prefixes alone. *)
Theorem cache_subreddits_replaces (rows : list (V * V)) (st : caches V) :
  fst (cache_subreddits (Some rows) st) = Ok tt
  /\ map (fun d => (guild_id d, subreddits d))
       (guild_subreddits (snd (cache_subreddits (Some rows) st))) = rows
  /\ guild_ids (snd (cache_subreddits (Some rows) st)) = guild_ids st
  /\ guild_prefixes (snd (cache_subreddits (Some rows) st)) = guild_prefixes st.
Proof.
  rewrite cache_subreddits_some. cbn [fst snd guild_ids guild_prefixes guild_subreddits].
  repeat split. induction rows as [|[id sr] rows IH]; [reflexivity |].
  cbn [map fst snd guild_id subreddits]. now rewrite IH.
Qed.

(** X20: the order of the two refreshes matters.  Subreddits first, then
    prefixes: the subreddit cache ends up empty.  Prefixes first, then
    subreddits: both caches are filled. *)
Theorem cache_refresh_order (guilds srs : list (V * V)) (st : caches V) :
  guild_subreddits (after_calls [CacheSubreddits (Some srs); CachePrefixes (Some guilds)] st)
  = []
  /\ after_calls [CachePrefixes (Some guilds); CacheSubreddits (Some srs)] st
     = mkCaches (map fst guilds) (map snd guilds)
         (map (fun sr => mk_sr_dict (fst sr) (snd sr)) srs).
Proof.
  unfold after_calls. cbn [fold_left after_call].
  now rewrite !cache_prefixes_some, !cache_subreddits_some.
Qed.

(** A refresh whose query failed raises [TypeError] (the loop runs over
    [None]) after the caches were cleared: a failed refresh of the prefixes
    leaves all three caches empty, a failed refresh of the subreddits leaves
    the subreddit cache empty; what was cached before is not kept. *)
Theorem cache_refresh_failure (st : caches V) :
  cache_prefixes None st = (Raise TypeError, mkCaches [] [] [])
  /\ cache_subreddits None st
     = (Raise TypeError, mkCaches (guild_ids st) (guild_prefixes st) []).
Proof. split; reflexivity. Qed.

(** X21: the ids and the prefixes stay aligned: after any series of
    refreshes, failed or not, started from caches of equal length, there are
    as many prefixes as ids. *)
Theorem caches_stay_aligned (calls : list (cache_call V)) (st : caches V) :
  length (guild_ids st) = length (guild_prefixes st) ->
  length (guild_ids (after_calls calls st))
  = length (guild_prefixes (after_calls calls st)).
Proof.
  unfold after_calls. revert st.
  induction calls as [|call calls IH]; intros st Haligned; [exact Haligned |].
  cbn [fold_left]. apply IH. destruct call as [[rows |] | [rows |]]; cbn [after_call].
  - rewrite cache_prefixes_some. cbn. now rewrite !length_map.
  - reflexivity.
  - now rewrite cache_subreddits_some.
  - exact Haligned.
Qed.

End CachesFacts.

Lemma caches_stay_aligned_witness :
  length (guild_ids (after_calls [CachePrefixes (Some [(1, 33); (2, 59)]); CacheSubreddits None;
                                  CachePrefixes None] (mkCaches [7] [33] [])))
  = length (guild_prefixes (after_calls [CachePrefixes (Some [(1, 33); (2, 59)]);
                                         CacheSubreddits None; CachePrefixes None]
                              (mkCaches [7] [33] []))).
Proof.
  apply (caches_stay_aligned
           [CachePrefixes (Some [(1, 33); (2, 59)]); CacheSubreddits None; CachePrefixes None]
           (mkCaches [7] [33] [])).
  reflexivity.
Defined.

(** ** The name generator *)

Section NameGenFacts.

Context {W G : Type}.
Variable choices : forall A : Type, list A -> list W -> G -> res (A * G).

(** X22: whatever number of syllables is drawn, the name has one syllable:
    the first pass of the loop returns.  The name is that syllable, then "i"
    when the race is spelled "human" and at most two syllables were drawn,
    then the note on IPA symbols. *)
Theorem name_gen_one_syllable (data : gmap string (gmap string (name_table W)))
    (race gender initial : string) (by_gender : gmap string (name_table W))
    (table : name_table W) (g g1 g2 : G) (syllables : Z) (text : string) :
  data !! Str.lower race = Some by_gender ->
  list_get (Str.chars (Str.lower gender)) 0 = Ok initial ->
  by_gender !! initial = Some table ->
  choices Z (syllable_counts (length (syl table))) (syl table) g = Ok (syllables, g1) ->
  1 <= syllables ->
  syllable choices table EmptyString g1 = Ok (text, g2) ->
  name_gen choices data race gender g
  = Ok (Some (text +:+ (if String.eqb race "human" && (syllables <=? 2) then "i" else "")
                +:+ IPA_NOTE), g2).
Proof.
  intros Hrace Hinitial Htable Hdrawn Hone Htext. unfold name_gen.
  rewrite Hrace. cbn [bind]. rewrite Hinitial. cbn [bind]. rewrite Htable. cbn [bind].
  rewrite Hdrawn. cbn [bind fst snd].
  destruct (Z.to_nat syllables) as [|n] eqn:Hn; [lia |].
  cbn [for_syllables]. rewrite Htext. cbn [bind fst snd].
  destruct (String.eqb race "human" && (syllables <=? 2)).
  - now rewrite append_assoc.
  - now rewrite append_nil_l.
Qed.

(** X23: the lookups of the table fail before anything is drawn: an unknown
    race raises [KeyError]; for a known race an empty gender raises
    [IndexError], and a gender whose initial has no table raises
    [KeyError]. *)
Theorem name_gen_lookup_errors (data : gmap string (gmap string (name_table W)))
    (race gender : string) (g : G) :
  (data !! Str.lower race = None -> name_gen choices data race gender g = Raise KeyError)
  /\ (forall by_gender,
         data !! Str.lower race = Some by_gender ->
         (gender = EmptyString -> name_gen choices data race gender g = Raise IndexError)
         /\ (forall initial,
                list_get (Str.chars (Str.lower gender)) 0 = Ok initial ->
                by_gender !! initial = None ->
                name_gen choices data race gender g = Raise KeyError)).
Proof.
  unfold name_gen. split; [intros ->; reflexivity |].
  intros by_gender ->. cbn [bind]. split.
  - intros ->. reflexivity.
  - intros initial -> Hnone. cbn [bind]. now rewrite Hnone.
Qed.

(** The race counts whatever its letter case for finding the table,
    and the gender counts through its lower-cased first character only: two
    calls that agree on these, and on whether the race is spelled "human",
    generate the same name. *)
Theorem name_gen_reads_initial (data : gmap string (gmap string (name_table W)))
    (race race' gender gender' : string) (g : G) :
  Str.lower race = Str.lower race' ->
  list_get (Str.chars (Str.lower gender)) 0 = list_get (Str.chars (Str.lower gender')) 0 ->
  String.eqb race "human" = String.eqb race' "human" ->
  name_gen choices data race gender g = name_gen choices data race' gender' g.
Proof.
  intros Hrace Hgender Hhuman. unfold name_gen. now rewrite Hrace, Hgender, Hhuman.
Qed.

End NameGenFacts.

Lemma name_gen_one_syllable_witness :
  name_gen pick_first sample_names "human" "Male" O
  = Ok (Some ("kan" +:+ (if String.eqb "human" "human" && (1 <=? 2) then "i" else "")
                +:+ IPA_NOTE), 5%nat).
Proof.
  apply (name_gen_one_syllable pick_first sample_names "human" "Male" "m"
           {[ "m"%string := sample_table ]} sample_table O 1%nat 5%nat 1 "kan");
    try reflexivity; try lia.
Defined.

Lemma name_gen_lookup_errors_witness :
  name_gen pick_first sample_names "Orc" "male" O = Raise KeyError
  /\ name_gen pick_first sample_names "Human" "" O = Raise IndexError
  /\ name_gen pick_first sample_names "Human" "female" O = Raise KeyError.
Proof.
  split; [| split].
  - apply (proj1 (name_gen_lookup_errors pick_first sample_names "Orc" "male" O)).
    reflexivity.
  - apply (proj2 (name_gen_lookup_errors pick_first sample_names "Human" "" O)
             {[ "m"%string := sample_table ]}); reflexivity.
  - apply (proj2 (name_gen_lookup_errors pick_first sample_names "Human" "female" O)
             {[ "m"%string := sample_table ]} eq_refl) with (initial := "f"%string);
      reflexivity.
Defined.

Lemma name_gen_reads_initial_witness :
  name_gen pick_first sample_names "Human" "Male" O
  = name_gen pick_first sample_names "HUMAN" "m" O.
Proof.
  apply (name_gen_reads_initial pick_first sample_names "Human" "HUMAN" "Male" "m" O);
    reflexivity.
Defined.

(** ** The loader *)

Lemma lower_char_idempotent (c : ascii) : Str.lower_char (Str.lower_char c) = Str.lower_char c.
Proof. destruct c as [[] [] [] [] [] [] [] []]; reflexivity. Qed.

Lemma lower_idempotent (s : string) : Str.lower (Str.lower s) = Str.lower s.
Proof.
  induction s as [|c s IH]; [reflexivity |].
  cbn [Str.lower]. now rewrite lower_char_idempotent, IH.
Qed.

Lemma load_files_keys (files : list (string * res (list json)))
    (raw raw' : gmap string (list json)) :
  load_files files raw = Ok raw' ->
  (forall key, is_Some (raw !! key) -> Str.lower key = key) ->
  forall key, is_Some (raw' !! key) -> Str.lower key = key.
Proof.
  revert raw. induction files as [|[file_name content] files IH]; intros raw Hload Hraw.
  - now injection Hload as <-.
  - cbn [load_files] in Hload. destruct (ends_with ".json" file_name).
    + apply bind_ok in Hload as (records & _ & Hload).
      apply (IH _ Hload). intros key Hkey.
      destruct (decide (resource_of file_name = key)) as [<- | Hne].
      * apply lower_idempotent.
      * rewrite lookup_insert_ne in Hkey by exact Hne. now apply Hraw.
    + now apply (IH raw).
Qed.

Lemma load_files_app (before rest : list (string * res (list json)))
    (raw raw' : gmap string (list json)) :
  load_files (before ++ rest) raw = Ok raw' ->
  exists raw1, load_files before raw = Ok raw1 /\ load_files rest raw1 = Ok raw'.
Proof.
  revert raw. induction before as [|[file_name content] before IH]; intros raw Hload.
  - eauto.
  - cbn [app load_files] in *. destruct (ends_with ".json" file_name); [| now apply IH].
    destruct content as [records | e]; [| discriminate]. cbn [bind] in *. now apply IH.
Qed.

Lemma load_files_other_keys (files : list (string * res (list json)))
    (raw raw' : gmap string (list json)) (key : string) :
  load_files files raw = Ok raw' ->
  forallb (fun file => negb (ends_with ".json" (fst file)
                            && String.eqb (resource_of (fst file)) key)) files = true ->
  raw' !! key = raw !! key.
Proof.
  revert raw. induction files as [|[file_name content] files IH]; intros raw Hload Hother.
  - now injection Hload as <-.
  - cbn [forallb fst] in Hother. apply andb_prop in Hother as [Hfile Hrest].
    cbn [load_files] in Hload. destruct (ends_with ".json" file_name).
    + apply bind_ok in Hload as (records & _ & Hload).
      rewrite (IH _ Hload Hrest). apply lookup_insert_ne.
      cbn [andb negb] in Hfile. apply negb_true_iff in Hfile. now apply String.eqb_neq.
    + now apply (IH raw).
Qed.

(** X24: every resource is loaded under a lower-case name: a key of the
    table is its own lower-cased form. *)
Theorem init_keys_lower_case (files : list (string * res (list json))) (self : SRD)
    (resource : string) :
  init files = Ok self ->
  is_Some (raw self !! resource) ->
  Str.lower resource = resource.
Proof.
  unfold init. intros Hinit. apply bind_ok in Hinit as (loaded & Hload & [= <-]).
  cbn [raw]. apply (load_files_keys files ∅ loaded Hload).
  intros key Hkey. rewrite lookup_empty in Hkey. now destruct Hkey.
Qed.

(** X25: so a search for a resource spelled with an upper-case letter
    raises [KeyError], whatever files were loaded. *)
Theorem search_resource_case_sensitive (files : list (string * res (list json)))
    (self : SRD) (resource attr request : string) (trunc : Z) :
  init files = Ok self ->
  Str.lower resource <> resource ->
  search self resource attr request trunc = Raise KeyError.
Proof.
  unfold init. intros Hinit Hupper. apply bind_ok in Hinit as (loaded & Hload & [= <-]).
  unfold search, raw_get. cbn [raw].
  destruct (loaded !! resource) as [target |] eqn:Hlookup; [| reflexivity].
  exfalso. apply Hupper. apply (load_files_keys files ∅ loaded Hload).
  - intros key Hkey. rewrite lookup_empty in Hkey. now destruct Hkey.
  - now rewrite Hlookup.
Qed.

(** X26: the records of a JSON file are found under the name derived from
    the file name, unless a later JSON file of the directory maps to the
    same name: then the later file wins. *)
Theorem init_finds_file (before after : list (string * res (list json)))
    (file_name : string) (records : list json) (self : SRD) :
  init (before ++ (file_name, Ok records) :: after) = Ok self ->
  ends_with ".json" file_name = true ->
  forallb (fun file => negb (ends_with ".json" (fst file)
                            && String.eqb (resource_of (fst file)) (resource_of file_name)))
    after = true ->
  raw self !! resource_of file_name = Some records.
Proof.
  unfold init. intros Hinit Hjson Hlater.
  apply bind_ok in Hinit as (loaded & Hload & [= <-]). cbn [raw].
  apply load_files_app in Hload as (raw1 & _ & Hload).
  cbn [load_files] in Hload. rewrite Hjson in Hload. cbn [bind] in Hload.
  rewrite (load_files_other_keys after _ loaded _ Hload Hlater).
  apply lookup_insert_eq.
Qed.

(** X27: files whose name does not end with ".json" are not read, and one
    malformed JSON file makes the whole load raise. *)
Theorem init_reads_json_files_only (files : list (string * res (list json))) :
  init files = init (List.filter (fun file => ends_with ".json" (fst file)) files)
  /\ (forall file_name e,
         In (file_name, Raise e) files -> ends_with ".json" file_name = true ->
         exists e', init files = Raise e').
Proof.
  unfold init. split.
  - f_equal. generalize (∅ : gmap string (list json)).
    induction files as [|[file_name content] files IH]; intros raw; [reflexivity |].
    cbn [List.filter load_files fst]. destruct (ends_with ".json" file_name) eqn:Hjson.
    + cbn [load_files]. rewrite Hjson. destruct content; cbn [bind]; [apply IH | reflexivity].
    + apply IH.
  - intros file_name e Hin Hjson.
    assert (H : forall raw, exists e', load_files files raw = Raise e').
    { induction files as [|[name content] files IH]; [destruct Hin |]. intros raw.
      cbn [load_files]. destruct Hin as [[= -> ->] | Hin].
      - rewrite Hjson. cbn [bind]. eauto.
      - destruct (ends_with ".json" name); [| now apply IH].
        destruct content; cbn [bind]; [now apply IH | eauto]. }
    destruct (H ∅) as [e' He']. exists e'. now rewrite He'.
Qed.

Lemma init_keys_lower_case_witness : Str.lower "spells" = "spells"%string.
Proof.
  apply (init_keys_lower_case sample_files spells_only "spells").
  - reflexivity.
  - exists [fireball]. reflexivity.
Defined.

Lemma search_resource_case_sensitive_witness :
  search spells_only "Spells" "name" "fire" 5 = Raise KeyError.
Proof.
  apply (search_resource_case_sensitive sample_files spells_only "Spells" "name" "fire" 5).
  - reflexivity.
  - discriminate.
Defined.

Lemma init_finds_file_witness :
  raw spells_only !! resource_of "5e-SRD-Spells.json" = Some [fireball].
Proof.
  apply (init_finds_file [] [("README.md"%string, Raise ValueError)]
           "5e-SRD-Spells.json" [fireball] spells_only); reflexivity.
Defined.

Lemma init_reads_json_files_only_witness :
  init sample_files
  = init (List.filter (fun file => ends_with ".json" (fst file)) sample_files)
  /\ exists e',
       init [("5e-SRD-Spells.json"%string, Ok [fireball]);
             ("5e-SRD-Traits.json"%string, Raise ValueError)] = Raise e'.
Proof.
  split.
  - apply (init_reads_json_files_only sample_files).
  - apply (proj2 (init_reads_json_files_only
                    [("5e-SRD-Spells.json"%string, Ok [fireball]);
                     ("5e-SRD-Traits.json"%string, Raise ValueError)])
             "5e-SRD-Traits.json" ValueError); [right; left; reflexivity | reflexivity].
Defined.
